(** * Hexagon Light BLE controller: protocol codec and session

    A shallow embedding of [hexagon_light.py] (MeRGBW / Fivemi lamps):
    the frame codec ([_build_command], the payload encoders, [_parse_state])
    as pure functions over bytes, and the session ([_connect_async],
    [_write_frame]) as programs of a state-and-exception monad that run
    against a scripted BLE transport.

    Conventions:
    - a Python [int] is a [Z]; [bytes] is a [list Z] whose elements are in
      [0, 255] (the predicate [is_bytes]);
    - a Python [float] is a binary64 primitive float;
    - [Optional[T]] is [option T];
    - a raised exception is the [Raise] case of [result]. *)

From Stdlib Require Import ZArith Lia List String Ascii Bool Floats.
From stdpp Require Import base option list strings gmap.
Import ListNotations.

Open Scope Z_scope.

(** * The program *)

(** ** Exceptions *)

(** The exceptions the module raises or lets through.  [HexagonLightError]
    carries an f-string message in the source; here every message is a
    constructor of its own with the values it interpolates. *)
#[warnings="-register-all"]
Inductive exn : Type :=
  | ValueError (frame_length : Z)
      (* "Command too long: {length} bytes" *)
  | UnknownSceneName (name : string)
      (* HexagonLightError("Unknown scene name: {name!r}") *)
  | NoEventLoop
      (* HexagonLightError("Not connected; call connect() first") *)
  | ConnectAborted
      (* HexagonLightError("Connect aborted (closing)") *)
  | ServiceNotFound (uuid : string)
      (* HexagonLightError("Service not found: {uuid}") *)
  | WriteCharNotFound (uuid : string)
      (* HexagonLightError("Write characteristic not found: {uuid}") *)
  | FailedToConnect (retries : Z) (last_err : option exn)
      (* HexagonLightError("Failed to connect after {n} attempts: {last_err}") *)
  | NotConnected
      (* HexagonLightError("Not connected") *)
  | ReconnectFailed
      (* HexagonLightError("Reconnect failed") *)
  | BleakError (code : nat)
      (* any Exception raised inside the BLE stack *)
  | ArithmeticError
      (* ZeroDivisionError, or what int() raises on nan and the infinities *)
  | CancelledError.
      (* asyncio.CancelledError: a BaseException that is not an Exception *)

(** [isinstance(e, HexagonLightError)]. *)
Definition is_HexagonLightError (e : exn) : bool :=
  match e with
  | UnknownSceneName _ | NoEventLoop | ConnectAborted | ServiceNotFound _
  | WriteCharNotFound _ | FailedToConnect _ _ | NotConnected
  | ReconnectFailed => true
  | _ => false
  end.

(** [isinstance(e, Exception)]: what a bare [except Exception] catches. *)
Definition is_Exception (e : exn) : bool :=
  match e with
  | CancelledError => false
  | _ => true
  end.

Inductive result (A : Type) : Type :=
  | Ok (a : A)
  | Raise (e : exn).
Arguments Ok {A} a.
Arguments Raise {A} e.

(** ** Bytes *)

Definition is_byte (x : Z) : Prop := 0 <= x <= 255.
Definition is_bytes (l : list Z) : Prop := Forall is_byte l.

(** Python's [len]. *)
Definition len {A} (l : list A) : Z := Z.of_nat (length l).

(** Python's [sum] over a byte sequence. *)
Definition sum (l : list Z) : Z := fold_left Z.add l 0.

(** [raw[i]] for an index the caller has checked to be in range. *)
Definition byte_at (raw : list Z) (i : nat) : Z := nth i raw 0.

(** ** Frame codec *)

Definition _clamp_int (value lo hi : Z) : Z :=
  if value <? lo then lo
  else if hi <? value then hi
  else value.

Definition _checksum_ff (sum_without_checksum : Z) : Z :=
  Z.land (0xFF - Z.land sum_without_checksum 0xFF) 0xFF.

Definition _build_command (cmd : Z) (payload : option (list Z)) : result (list Z) :=
  let payload := default [] payload in
  let cmd := Z.land cmd 0xFF in
  let seq := 0xFF in
  let flen := 5 + len payload in
  if 0xFF <? flen then Raise (ValueError flen)
  else
    let frame := replicate (Z.to_nat flen) 0 in
    let frame := <[0%nat := 0x55]> frame in
    let frame := <[1%nat := cmd]> frame in
    let frame := <[2%nat := seq]> frame in
    let frame := <[3%nat := Z.land flen 0xFF]> frame in
    (* frame[4 : 4 + len(payload)] = payload *)
    let frame := take 4 frame ++ payload ++ drop (4 + length payload) frame in
    (* sum(frame[:-1]) and frame[-1] = ... *)
    let sum_ := sum (take (length frame - 1) frame) in
    let frame := <[(length frame - 1)%nat := _checksum_ff sum_]> frame in
    Ok frame.

Definition _u16_be (value : Z) : list Z :=
  let value := Z.land value 0xFFFF in
  [Z.land (Z.shiftr value 8) 0xFF; Z.land value 0xFF].

(** ** Python floats *)

(** [float(n)] for an [int] with [|n| < 2^63]; the codec only converts
    channels in [0, 255] and attempt numbers. *)
Definition float_of_int (n : Z) : float :=
  if n <? 0 then PrimFloat.opp (PrimFloat.of_uint63 (Uint63.of_Z (- n)))
  else PrimFloat.of_uint63 (Uint63.of_Z n).

(** [int(x)]: truncation toward zero; [None] where Python raises
    (ValueError on nan, OverflowError on an infinity). *)
Definition float_to_int (x : float) : option Z :=
  match Prim2SF x with
  | S754_zero _ => Some 0
  | S754_finite s m e =>
      let a := if 0 <=? e then Z.shiftl (Z.pos m) e
               else Z.shiftr (Z.pos m) (- e) in
      Some (if s then - a else a)
  | S754_infinity _ | S754_nan => None
  end.

(** [round(x)] with one argument: the nearest integer, ties to even. *)
Definition float_round (x : float) : option Z :=
  match Prim2SF x with
  | S754_zero _ => Some 0
  | S754_finite s m e =>
      let a :=
        if 0 <=? e then Z.shiftl (Z.pos m) e
        else
          let q := Z.shiftr (Z.pos m) (- e) in
          let rem := Z.pos m - Z.shiftl q (- e) in
          let half := Z.shiftl 1 (- e - 1) in
          if half <? rem then q + 1
          else if rem <? half then q
          else if Z.even q then q else q + 1 in
      Some (if s then - a else a)
  | S754_infinity _ | S754_nan => None
  end.

Definition is_finite (x : float) : bool :=
  negb (PrimFloat.is_nan x) && negb (PrimFloat.is_infinity x).

(** [x / y] on floats; [None] is ZeroDivisionError. *)
Definition float_div (x y : float) : option float :=
  if (y =? 0)%float then None else Some (x / y)%float.

(** C's [fmod(x, 1.0)]: [x] itself when [|x| < 1], else [x] minus its
    integral part (exact); nan for nan and the infinities. *)
Definition fmod_1 (x : float) : float :=
  if (PrimFloat.abs x <? 1)%float then x
  else
    match float_to_int x with
    | None => PrimFloat.nan
    | Some t =>
        if Z.abs t <? 2 ^ 53 then (x - float_of_int t)%float
        else (x * 0)%float
    end.

(** [x % 1.0] (CPython's [float_rem]): the remainder of [fmod], moved to
    [[0, 1]] when negative, and [+0.0] when it is a zero. *)
Definition float_mod_1 (x : float) : float :=
  let m := fmod_1 x in
  if (m =? 0)%float then 0%float
  else if (m <? 0)%float then (m + 1)%float
  else m.

(** [max(a, b, c)] and [min(a, b, c)]: the first extremal item wins. *)
Definition float_max3 (a b c : float) : float :=
  let m := if (a <? b)%float then b else a in
  if (m <? c)%float then c else m.

Definition float_min3 (a b c : float) : float :=
  let m := if (b <? a)%float then b else a in
  if (c <? m)%float then c else m.

(** [colorsys.rgb_to_hsv] of the Python standard library. *)
Definition rgb_to_hsv (r g b : float) : option (float * float * float) :=
  let maxc := float_max3 r g b in
  let minc := float_min3 r g b in
  let rangec := (maxc - minc)%float in
  let v := maxc in
  if (minc =? maxc)%float then Some (0%float, 0%float, v)
  else
    s ← float_div rangec maxc;
    rc ← float_div (maxc - r) rangec;
    gc ← float_div (maxc - g) rangec;
    bc ← float_div (maxc - b) rangec;
    let h :=
      if (r =? maxc)%float then (bc - gc)%float
      else if (g =? maxc)%float then (2 + rc - bc)%float
      else (4 + gc - rc)%float in
    let h := float_mod_1 (h / 6)%float in
    Some (h, s, v).

(** ** Colour payload *)

(** What the source does with the hue and the saturation once it has them. *)
Definition hue_sat_bytes (h s : float) : option (list Z) :=
  hi ← float_to_int (h * 360)%float;
  let hue_deg := hi mod 360 in
  si ← float_to_int (s * 1000)%float;
  let sat_1000 := _clamp_int si 0 1000 in
  Some (_u16_be hue_deg ++ _u16_be sat_1000).

(** [c / 255.0] for a channel value. *)
Definition channel (c : Z) : float := (float_of_int c / 255)%float.

Definition channel_hsv (r g b : Z) : option (float * float * float) :=
  rgb_to_hsv (channel r) (channel g) (channel b).

Definition _rgb_to_hue_sat_payload (r g b : Z) : option (list Z) :=
  let r := _clamp_int r 0 255 in
  let g := _clamp_int g 0 255 in
  let b := _clamp_int b 0 255 in
  '(h, s, _v) ← channel_hsv r g b;
  hue_sat_bytes h s.

(** The colour payload as the specification words it: as in the source,
    except that the saturation is [round(saturation * 1000)]. *)
Definition encode_color_spec (r g b : Z) : option (list Z) :=
  let r := _clamp_int r 0 255 in
  let g := _clamp_int g 0 255 in
  let b := _clamp_int b 0 255 in
  '(h, s, _v) ← channel_hsv r g b;
  hi ← float_to_int (h * 360)%float;
  let hue_deg := hi mod 360 in
  si ← float_round (s * 1000)%float;
  let sat_1000 := _clamp_int si 0 1000 in
  Some (_u16_be hue_deg ++ _u16_be sat_1000).

(** ** Brightness payload and notification parsing *)

(** Lines 442-444 of [_set_brightness_async]: the wire value and its
    payload. *)
Definition brightness_value (percent : Z) : Z :=
  let value := (percent + 5) * 10 in
  _clamp_int value 0 0xFFFF.

Definition brightness_payload (percent : Z) : list Z :=
  _u16_be (brightness_value percent).

Record HexagonState : Type := mkHexagonState {
  is_on : option bool;
  brightness_percent : option Z;
  raw : option (list Z)
}.

Definition in_percent_range (b : Z) : option Z :=
  if (0 <=? b) && (b <=? 100) then Some b else None.

Definition _parse_state (raw : option (list Z)) : HexagonState :=
  match raw with
  | None | Some [] => mkHexagonState None None None
  | Some raw =>
      if len raw <? 6 then mkHexagonState None None (Some raw)
      else if negb (Z.land (sum raw) 0xFF =? 0xFF) then
        mkHexagonState None None (Some raw)
      else if byte_at raw 0 =? 0x55 then
        let length := byte_at raw 3 in
        if negb (length =? len raw) then mkHexagonState None None (Some raw)
        else
          let is_on := negb (byte_at raw 4 =? 0) in
          let brightness_percent :=
            if 7 <=? len raw then in_percent_range (byte_at raw 5 - 5)
            else None in
          mkHexagonState (Some is_on) brightness_percent (Some raw)
      else if negb (byte_at raw 0 =? 0x56) then
        mkHexagonState None None (Some raw)
      else
        let is_on := negb (byte_at raw 4 =? 0) in
        let brightness_percent :=
          if 8 <=? len raw then
            let value := Z.lor (Z.shiftl (byte_at raw 5) 8) (byte_at raw 6) in
            in_percent_range (value / 10 - 5)
          else None in
        mkHexagonState (Some is_on) brightness_percent (Some raw)
  end.

(** [bytes.fromhex("5600ff060100be0008177f0008177f00505009")]. *)
Definition tg609_sync_frame : list Z :=
  [0x56; 0x00; 0xff; 0x06; 0x01; 0x00; 0xbe; 0x00; 0x08; 0x17;
   0x7f; 0x00; 0x08; 0x17; 0x7f; 0x00; 0x50; 0x50; 0x09].

(** ** Scene names *)

(** Scene names are strings of code points below 256 (Latin-1), which
    covers every key of the table; [str.lower] and [str.strip] are modelled
    on that range. *)

Definition scene_items : list (string * Z) :=
  [ ("symphony", 2); ("energy", 3); ("jump", 4); ("vitality", 7);
    ("accumulation", 16); ("chase", 23); ("space-time", 45);
    ("space_time", 45); ("ephemeral", 35); ("flow", 55); ("forest", 13);
    ("neon_lights", 48); ("neon-lights", 48); ("green_jade", 71);
    ("green-jade", 71); ("running", 91); ("pink_light", 109);
    ("pink-light", 109); ("alarm", 113); ("aurora", 59); ("rainbow", 26);
    ("melody", 32) ]%string.

Definition SCENES_TG609 : gmap string Z := list_to_map scene_items.

(** [c.isspace()] for a code point below 256. *)
Definition char_isspace (c : ascii) : bool :=
  let n := N_of_ascii c in
  ((9 <=? n) && (n <=? 13) || (28 <=? n) && (n <=? 32)
   || (n =? 0x85) || (n =? 0xA0))%N.

(** [c.lower()] for a code point below 256: A-Z, and the Latin-1 capitals
    0xC0-0xDE except the multiplication sign 0xD7. *)
Definition char_lower (c : ascii) : ascii :=
  let n := N_of_ascii c in
  if ((65 <=? n) && (n <=? 90)
      || (0xC0 <=? n) && (n <=? 0xDE) && negb (n =? 0xD7))%N
  then ascii_of_N (n + 32)
  else c.

Fixpoint string_map (f : ascii -> ascii) (s : string) : string :=
  match s with
  | EmptyString => EmptyString
  | String c s' => String (f c) (string_map f s')
  end.

Fixpoint str_lstrip (s : string) : string :=
  match s with
  | EmptyString => EmptyString
  | String c s' => if char_isspace c then str_lstrip s' else s
  end.

Fixpoint str_rstrip (s : string) : string :=
  match s with
  | EmptyString => EmptyString
  | String c s' =>
      match str_rstrip s' with
      | EmptyString => if char_isspace c then EmptyString
                       else String c EmptyString
      | t => String c t
      end
  end.

Definition str_strip (s : string) : string := str_rstrip (str_lstrip s).

Definition str_lower (s : string) : string := string_map char_lower s.

(** [s.replace(old, new)] for one-character [old] and [new]. *)
Definition str_replace (old new : ascii) (s : string) : string :=
  string_map (fun c => if Ascii.eqb c old then new else c) s.

(** Lines 213-217 of [set_scene_by_name]: the index the name resolves to,
    if any. *)
Definition resolve_scene_name (name : string) : option Z :=
  let key := str_replace " " "_" (str_lower (str_strip name)) in
  let scene := SCENES_TG609 !! key in
  match scene with
  | Some _ => scene
  | None =>
      let key2 := str_replace "_" "-" (str_lower (str_strip name)) in
      SCENES_TG609 !! key2
  end.

(** Hyphen and underscore exchanged throughout a name. *)
Definition char_swap (c : ascii) : ascii :=
  if Ascii.eqb c "-" then "_"%char
  else if Ascii.eqb c "_" then "-"%char
  else c.

Definition swap_hyphen_underscore (s : string) : string :=
  string_map char_swap s.

(** ** Session state and the scripted transport *)

Record _WriteConfig : Type := mk_WriteConfig {
  service_uuid : string;
  char_uuid : string;
  response : bool
}.

(** A [BleakClient]: the handle is told apart by the number of the connect
    attempt that made it. *)
Record BleakClient : Type := mkBleakClient {
  client_id : nat;
  is_connected : bool
}.

(** The constructor arguments of [HexagonLight]. *)
Record config : Type := mkConfig {
  address : string;
  _service_uuid : string;
  _write_uuid : string;
  _notify_uuid : string;
  _timeout : float;
  _connect_retries : Z;
  _retry_delay_s : float
}.

Definition DEFAULT_SERVICE_UUID : string := "0000fff0-0000-1000-8000-00805f9b34fb".
Definition DEFAULT_WRITE_UUID : string := "0000fff3-0000-1000-8000-00805f9b34fb".
Definition DEFAULT_NOTIFY_UUID : string := "0000fff4-0000-1000-8000-00805f9b34fb".

(** [HexagonLight(address)] with every keyword at its default; [0.7] is
    the binary64 number nearest to it. *)
Definition default_config (address : string) : config :=
  mkConfig address DEFAULT_SERVICE_UUID DEFAULT_WRITE_UUID DEFAULT_NOTIFY_UUID
           15%float 5 0x1.6666666666666p-1%float.

(** The mutable fields of [self]; [_loop] is whether the event-loop thread
    is running. *)
Record session : Type := mkSession {
  _loop : bool;
  _client : option BleakClient;
  _write : option _WriteConfig;
  _closing : bool;
  _last_notify : option (list Z);
  _notify_event : bool
}.

(** What the service registry of a fresh connection answers at lines
    350-364. *)
Inductive registry_view : Type :=
  | NoRegistry
      (* [svcs is None], or it has no [get_service] *)
  | NoService
      (* [get_service(uuid)] is [None] *)
  | NoCharacteristic
      (* [get_characteristic(uuid)] is [None] *)
  | Characteristic (properties : list string).

(** What the BLE stack does during one connect attempt: for each awaited
    call, the exception it raises, if any. *)
Record attempt : Type := mkAttempt {
  on_connect : option exn;
  services_empty : bool;
  on_get_services : option (option exn);
      (* [None]: the backend has no callable [_get_services] *)
  registry : registry_view;
  on_disconnect : option exn;
  on_start_notify : option exn
}.

(** The awaited transport calls and sleeps, in the order they happen. *)
Inductive event : Type :=
  | EvConnect (client : nat)
  | EvGetServices (client : nat)
  | EvDisconnect (client : nat)
  | EvStartNotify (client : nat)
  | EvSleep (seconds : float)
  | EvWrite (client : nat) (char_uuid : string) (frame : list Z) (response : bool).

Definition is_write_event (ev : event) : bool :=
  match ev with EvWrite _ _ _ _ => true | _ => false end.

Definition is_connect_event (ev : event) : bool :=
  match ev with EvConnect _ => true | _ => false end.

(** The object together with the transport's side: how many connects and
    writes were issued so far, and the trace. *)
Record world : Type := mkWorld {
  self : session;
  connects : nat;
  writes : nat;
  trace : list event
}.

(** ** The monad of the coroutines *)

Definition M (A : Type) : Type := world -> result A * world.

#[global] Instance M_ret : MRet M := fun A (a : A) (w : world) => (Ok a, w).

#[global] Instance M_bind : MBind M :=
  fun A B (f : A -> M B) (m : M A) (w : world) =>
    match m w with
    | (Ok a, w') => f a w'
    | (Raise e, w') => (Raise e, w')
    end.

Definition raise {A} (e : exn) : M A := fun w => (Raise e, w).

Definition lift {A} (r : result A) : M A := fun w => (r, w).

(** [try: m except <catches> as e: handler e]; what the body did to the
    state before raising stays done. *)
Definition try_except {A} (m : M A) (catches : exn -> bool) (handler : exn -> M A) : M A :=
  fun w =>
    match m w with
    | (Ok a, w') => (Ok a, w')
    | (Raise e, w') => if catches e then handler e w' else (Raise e, w')
    end.

Definition get_self : M session := fun w => (Ok (self w), w).

Definition set_self (f : session -> session) : M unit :=
  fun w => (Ok tt, mkWorld (f (self w)) (connects w) (writes w) (trace w)).

Definition emit (ev : event) : M unit :=
  fun w => (Ok tt, mkWorld (self w) (connects w) (writes w) (trace w ++ [ev])).

(** An awaited transport call: it is recorded, then raises or returns. *)
Definition await (ev : event) (outcome : option exn) : M unit :=
  emit ev;;
  match outcome with
  | Some e => raise e
  | None => mret tt
  end.

Definition BaseException (e : exn) : bool := true.

(** ** The session's coroutines *)

(** [range(lo, hi)]. *)
Definition range (lo hi : Z) : list Z := seqZ lo (hi - lo).

Definition client_live (s : session) : bool :=
  match _client s with
  | Some client => is_connected client
  | None => false
  end.

Section Session.
(** The object's configuration, and the transport's script: what the
    [n]-th connect attempt meets, and what the [n]-th characteristic write
    raises. *)
Variable cfg : config.
Variable connect_script : nat -> attempt.
Variable write_script : nat -> option exn.

(** [BleakClient(...)]: a new handle, and the script of its attempt. *)
Definition new_client : M (nat * attempt) :=
  fun w =>
    (Ok (connects w, connect_script (connects w)),
     mkWorld (self w) (S (connects w)) (writes w) (trace w)).

(** [client.write_gatt_char(char_uuid, frame, response=...)]. *)
Definition write_gatt_char (client : BleakClient) (write : _WriteConfig)
    (frame : list Z) : M unit :=
  fun w =>
    let ev := EvWrite (client_id client) (char_uuid write) frame (response write) in
    let w' := mkWorld (self w) (connects w) (S (writes w)) (trace w ++ [ev]) in
    match write_script (writes w) with
    | Some e => (Raise e, w')
    | None => (Ok tt, w')
    end.

Definition _on_disconnect : M unit :=
  set_self (fun s => mkSession (_loop s) None None (_closing s) None false).

(** The body of the [try] of [_connect_async] up to the point where the
    connection is stored: connect, load the services, resolve the write
    characteristic, subscribe. *)
Definition connect_once : M (BleakClient * bool) :=
  '(id, a) ← new_client;
  await (EvConnect id) (on_connect a);;
  (if services_empty a then
     match on_get_services a with
     | Some outcome => await (EvGetServices id) outcome
     | None => mret tt
     end
   else mret tt);;
  response ←
    match registry a with
    | NoRegistry => mret false
    | NoService =>
        await (EvDisconnect id) (on_disconnect a);;
        raise (ServiceNotFound (_service_uuid cfg))
    | NoCharacteristic =>
        await (EvDisconnect id) (on_disconnect a);;
        raise (WriteCharNotFound (_write_uuid cfg))
    | Characteristic props =>
        mret (negb (bool_decide ("write-without-response"%string ∈ props)))
    end;
  try_except (await (EvStartNotify id) (on_start_notify a))
    is_Exception (fun _ => mret tt);;
  mret (mkBleakClient id true, response).

(** One round of the [for] loop, for the attempt numbers still to come. *)
Fixpoint connect_loop (attempts : list Z) (last_err : option exn) : M unit :=
  match attempts with
  | [] => raise (FailedToConnect (_connect_retries cfg) last_err)
  | attempt :: rest =>
      s ← get_self;
      if _closing s then raise ConnectAborted
      else if client_live s then mret tt
      else
        failed ←
          try_except
            ('(client, response) ← connect_once;
             set_self (fun s =>
               mkSession (_loop s) (Some client)
                 (Some (mk_WriteConfig (_service_uuid cfg) (_write_uuid cfg) response))
                 (_closing s) (_last_notify s) false);;
             mret None)
            BaseException
            (fun e =>
               emit (EvSleep (_retry_delay_s cfg * float_of_int attempt)%float);;
               mret (Some e));
        match failed with
        | None => mret tt
        | Some e => connect_loop rest (Some e)
        end
  end.

Definition _connect_async : M unit :=
  connect_loop (range 1 (_connect_retries cfg + 1)) None.

Definition _ensure_connected : M unit :=
  s ← get_self;
  if client_live s then mret tt else _connect_async.

Definition _write_frame (frame : list Z) : M unit :=
  _ensure_connected;;
  s ← get_self;
  match _client s, _write s with
  | Some client, Some write =>
      try_except (write_gatt_char client write frame) is_Exception
        (fun _ =>
           _on_disconnect;;
           _ensure_connected;;
           s ← get_self;
           match _client s, _write s with
           | Some client, Some write => write_gatt_char client write frame
           | _, _ => raise ReconnectFailed
           end)
  | _, _ => raise NotConnected
  end.

Definition _send_simple_power (on : bool) : M unit :=
  let payload := [if on then 0x01 else 0x00] in
  frame ← lift (_build_command 0x01 (Some payload));
  _write_frame frame.

Definition _request_sync_async : M unit :=
  frame ← lift (_build_command 0x00 None);
  _write_frame frame.

Definition _set_scene_async (scene : Z) (speed : option Z) : M unit :=
  let scene := _clamp_int scene 0 0xFFFF in
  frame ← lift (_build_command 0x06 (Some (_u16_be scene)));
  _write_frame frame;;
  match speed with
  | Some speed =>
      let speed_b := Z.land (_clamp_int speed 0 255) 0xFF in
      frame ← lift (_build_command 0x0F (Some [speed_b]));
      _write_frame frame
  | None => mret tt
  end.

Definition _set_brightness_async (percent : Z) : M unit :=
  let payload := brightness_payload percent in
  frame ← lift (_build_command 0x05 (Some payload));
  _write_frame frame.

(** The payload builder's arithmetic errors surface as they are. *)
Definition _set_rgb_async (r g b : Z) : M unit :=
  match _rgb_to_hue_sat_payload r g b with
  | None => raise ArithmeticError
  | Some payload =>
      frame ← lift (_build_command 0x03 (Some payload));
      _write_frame frame
  end.

(** *** The synchronous methods *)

(** [_run]: the coroutine runs to its end on the loop thread; the
    timeout of the wait is not modelled. *)
Definition _run (coro : M unit) : M unit :=
  s ← get_self;
  if _loop s then coro else raise NoEventLoop.

Definition _start_loop_thread : M unit :=
  s ← get_self;
  if _loop s then mret tt
  else set_self (fun s =>
         mkSession true (_client s) (_write s) false (_last_notify s)
                   (_notify_event s)).

Definition connect : M unit :=
  _start_loop_thread;;
  _run _connect_async.

Definition turn_on : M unit := _run (_send_simple_power true).
Definition turn_off : M unit := _run (_send_simple_power false).

Definition set_brightness (percent : Z) : M unit :=
  let percent := _clamp_int percent 0 100 in
  _run (_set_brightness_async percent).

Definition set_rgb (r g b : Z) : M unit := _run (_set_rgb_async r g b).

Definition set_scene (scene : Z) (speed : option Z) : M unit :=
  _run (_set_scene_async scene speed).

Definition set_scene_by_name (name : string) (speed : option Z) : M unit :=
  match resolve_scene_name name with
  | None => raise (UnknownSceneName name)
  | Some scene => set_scene scene speed
  end.

End Session.

(** ** Disconnecting and reading the state *)

(** [try: m finally: cleanup]. *)
Definition try_finally {A} (m : M A) (cleanup : M unit) : M A :=
  fun w =>
    match m w with
    | (r, w') =>
        match cleanup w' with
        | (Ok _, w'') => (r, w'')
        | (Raise e, w'') => (Raise e, w'')
        end
    end.

(** [self._notify_event.wait(timeout=...)]: [arrival] is the notification
    that the handler of line 366 receives before the timeout, if any; the
    event may also be set already. *)
Definition wait_notify (arrival : option (list Z)) : M bool :=
  s ← get_self;
  if _notify_event s then mret true
  else
    match arrival with
    | Some data =>
        set_self (fun s =>
          mkSession (_loop s) (_client s) (_write s) (_closing s) (Some data) true);;
        mret true
    | None => mret false
    end.

Section Lifecycle.
Variable cfg : config.
Variable connect_script : nat -> attempt.
Variable write_script : nat -> option exn.
(** What [client.disconnect()] raises on the handle of a given number. *)
Variable disconnect_script : nat -> option exn.

Definition _disconnect_async : M unit :=
  s ← get_self;
  let client := _client s in
  set_self (fun s =>
    mkSession (_loop s) None None (_closing s) None (_notify_event s));;
  match client with
  | Some client =>
      try_except
        (await (EvDisconnect (client_id client))
               (disconnect_script (client_id client)))
        is_Exception (fun _ => mret tt)
  | None => mret tt
  end.

Definition _stop_loop_thread : M unit :=
  set_self (fun s =>
    mkSession false (_client s) (_write s) (_closing s) (_last_notify s)
              (_notify_event s)).

Definition disconnect : M unit :=
  set_self (fun s =>
    mkSession (_loop s) (_client s) (_write s) true (_last_notify s)
              (_notify_event s));;
  try_finally (_run _disconnect_async) _stop_loop_thread.

(** [get_state(wait_s=..., request_sync=...)]; the length of the wait
    shows only in whether a notification arrives in time. *)
Definition get_state (request_sync : bool) (arrival : option (list Z)) : M HexagonState :=
  set_self (fun s =>
    mkSession (_loop s) (_client s) (_write s) (_closing s) (_last_notify s) false);;
  failed ←
    try_except (A := bool)
      (_run (_ensure_connected cfg connect_script);;
       (if request_sync
        then _run (_request_sync_async cfg connect_script write_script)
        else mret tt);;
       mret false)
      is_Exception
      (fun _ => mret true);
  match failed with
  | true => mret (mkHexagonState None None None)
  | false =>
      arrived ← wait_notify arrival;
      s ← get_self;
      match arrived with
      | true => mret (_parse_state (_last_notify s))
      | false => mret (mkHexagonState None None (_last_notify s))
      end
  end.

End Lifecycle.

(** * Definitions for the proofs *)

(** ** Frames written out *)

(** The frame [_build_command] returns, written out. *)
Definition frame_of (cmd : Z) (payload : list Z) : list Z :=
  let flen := 5 + len payload in
  let body := [0x55; Z.land cmd 0xFF; 0xFF; Z.land flen 0xFF] ++ payload in
  body ++ [_checksum_ff (sum body)].

(** ** Checks on the colour conversion *)

(** Every channel triple in [0, 255] converts without an arithmetic
    error.  [hsv_finite] is what has to hold of a triple; the checks below
    establish it from tables over pairs of channel values. *)
Definition hsv_finite (r g b : Z) : bool :=
  match channel_hsv r g b with
  | Some (h, s, _) => is_finite (h * 360)%float && is_finite (s * 1000)%float
  | None => false
  end.

Fixpoint all_from (n : nat) (z : Z) (p : Z -> bool) : bool :=
  match n with
  | O => true
  | S k => p z && all_from k (z + 1) p
  end.

Fixpoint zrange (n : nat) (z : Z) : list Z :=
  match n with
  | O => []
  | S k => z :: zrange k (z + 1)
  end.

(** The facts about a pair of channel values [i], [j]: the floats
    [i / 255.0] and [j / 255.0] compare as [i] and [j] do, and if [j < i]
    the saturation for maximum [i] and minimum [j] is defined and finite. *)
Definition pair_check (i j : Z) : bool :=
  Bool.eqb (channel i <? channel j)%float (i <? j)
  && Bool.eqb (channel i =? channel j)%float (i =? j)
  && (if j <? i then
        match float_div (channel i - channel j) (channel i) with
        | Some s => is_finite (s * 1000)%float
        | None => false
        end
      else true).

(** The hue computed from [h0] converts to an integer. *)
Definition hue_ok (h0 : float) : bool :=
  is_finite (float_mod_1 (h0 / 6) * 360)%float.

(** The three hue formulas of [rgb_to_hsv] on the operands [a], [b]. *)
Definition pair_ok (a b : float) : bool :=
  hue_ok (a - b)%float && hue_ok (2 + a - b)%float && hue_ok (4 + a - b)%float.

(** For the range [d2 = maxc - minc] and the distance [dx = maxc - x] of
    some channel from the maximum: the quotient is defined, and every hue
    formula on it and on the quotient of the minimum channel is fine. *)
Definition quot_ok (d2 dx : float) : bool :=
  match float_div dx d2, float_div d2 d2 with
  | Some qx, Some q1 => pair_ok qx q1 && pair_ok q1 qx
  | _, _ => false
  end.

#[global] Instance float_eq_dec : EqDecision float.
Proof.
  intros x y. destruct (PrimFloat.Leibniz.eqb x y) eqn:Heq.
  - left. apply FloatAxioms.Leibniz.eqb_spec. exact Heq.
  - right. intros Hxy. apply FloatAxioms.Leibniz.eqb_spec in Hxy. congruence.
Defined.

(** The distinct floats [chans[x + k] - chans[x]]. *)
Definition lag_diffs (chans : list float) (k : nat) : list float :=
  remove_dups (zip_with PrimFloat.sub (drop k chans) chans).

Definition channels : list float := channel <$> zrange 256 0.

(** [quot_ok] for every range in a table of [tables] and every distance in
    that table, in an earlier one, or in [acc]. *)
Fixpoint quot_tables_ok (tables : list (list float)) (acc : list float) : bool :=
  match tables with
  | [] => true
  | dk :: rest =>
      let acc' := dk ++ acc in
      forallb (fun d2 => forallb (quot_ok d2) acc') dk
      && quot_tables_ok rest acc'
  end.

(** For a maximum [i] over a minimum of 0, the saturation is exactly
    1.0. *)
Definition full_saturation_check (i : Z) : bool :=
  match float_div (channel i - channel 0) (channel i) with
  | Some s => PrimFloat.Leibniz.eqb s 1
  | None => false
  end.

(** ** Separators in scene names *)

(** Both separators read as one. *)
Definition char_norm (c : ascii) : ascii :=
  if Ascii.eqb c "-" then "_"%char else c.

Definition is_sep (c : ascii) : bool := Ascii.eqb c "-" || Ascii.eqb c "_".

Fixpoint count_sep (s : string) : nat :=
  match s with
  | EmptyString => 0
  | String c s' => ((if is_sep c then 1 else 0) + count_sep s')%nat
  end.

(** Every key of the table has at most one separator, and its swap is a key
    with the same index. *)
Definition scene_key_closed (item : string * Z) : bool :=
  (count_sep item.1 <=? 1)%nat
  && bool_decide (SCENES_TG609 !! swap_hyphen_underscore item.1 = Some item.2).

(** ** Outcomes and traces of connect attempts *)

(** A fully successful attempt: the response mode it resolves, and the
    transport calls it makes. *)
Definition attempt_response (a : attempt) : option bool :=
  match on_connect a with
  | Some _ => None
  | None =>
      let refresh_ok :=
        match services_empty a, on_get_services a with
        | true, Some (Some _) => false
        | _, _ => true
        end in
      let notify_ok :=
        match on_start_notify a with
        | Some e => is_Exception e
        | None => true
        end in
      if refresh_ok && notify_ok then
        match registry a with
        | NoRegistry => Some false
        | Characteristic props =>
            Some (negb (bool_decide ("write-without-response"%string ∈ props)))
        | NoService | NoCharacteristic => None
        end
      else None
  end.

Definition attempt_events (id : nat) (a : attempt) : list event :=
  [EvConnect id]
  ++ (if services_empty a then
        match on_get_services a with
        | Some _ => [EvGetServices id]
        | None => []
        end
      else [])
  ++ [EvStartNotify id].

(** The trace of [n] failed connects starting with attempt number
    [attempt] and handle [id]: each is followed by its backoff sleep. *)
Fixpoint backoff_trace (cfg : config) (n : nat) (attempt : Z) (id : nat) : list event :=
  match n with
  | O => []
  | S k =>
      EvConnect id
      :: EvSleep (_retry_delay_s cfg * float_of_int attempt)%float
      :: backoff_trace cfg k (attempt + 1) (S id)
  end.

(** ** One connect attempt, whatever its end *)

(** The last step of an attempt: the subscription; an [Exception] it
    raises is dropped. *)
Definition subscribe_outcome (a : attempt) (response : bool) : result bool :=
  match on_start_notify a with
  | Some e => if is_Exception e then Ok response else Raise e
  | None => Ok response
  end.

(** The transport calls of one attempt on the handle [id], and what the
    attempt comes to: the response mode it resolves, or the exception that
    ends it. *)
Definition run_attempt (cfg : config) (id : nat) (a : attempt) : list event * result bool :=
  match on_connect a with
  | Some e => ([EvConnect id], Raise e)
  | None =>
      let refresh := if services_empty a then on_get_services a else None in
      let loaded :=
        EvConnect id
        :: match refresh with
           | Some _ => [EvGetServices id]
           | None => []
           end in
      match refresh with
      | Some (Some e) => (loaded, Raise e)
      | _ =>
          match registry a with
          | NoRegistry =>
              (loaded ++ [EvStartNotify id], subscribe_outcome a false)
          | NoService =>
              (loaded ++ [EvDisconnect id],
               Raise (default (ServiceNotFound (_service_uuid cfg)) (on_disconnect a)))
          | NoCharacteristic =>
              (loaded ++ [EvDisconnect id],
               Raise (default (WriteCharNotFound (_write_uuid cfg)) (on_disconnect a)))
          | Characteristic props =>
              (loaded ++ [EvStartNotify id],
               subscribe_outcome a
                 (negb (bool_decide ("write-without-response"%string ∈ props))))
          end
      end
  end.

(** The trace of [n] failed attempts of any kind, each followed by its
    backoff sleep. *)
Fixpoint retry_trace (cfg : config) (cs : nat -> attempt) (n : nat)
    (attempt : Z) (id : nat) : list event :=
  match n with
  | O => []
  | S k =>
      (run_attempt cfg id (cs id)).1
      ++ EvSleep (_retry_delay_s cfg * float_of_int attempt)%float
      :: retry_trace cfg cs k (attempt + 1) (S id)
  end.

(** The session as [_connect_async] leaves it on success. *)
Definition connected_session (cfg : config) (s : session) (id : nat) (response : bool) : session :=
  mkSession (_loop s) (Some (mkBleakClient id true))
    (Some (mk_WriteConfig (_service_uuid cfg) (_write_uuid cfg) response))
    (_closing s) (_last_notify s) false.

(** The handle and the write target are there together or not at all. *)
Definition paired (s : session) : bool :=
  match _client s, _write s with
  | Some _, Some _ | None, None => true
  | _, _ => false
  end.

(** An event that is not a write, or that writes [frame]. *)
Definition writes_only (frame : list Z) (ev : event) : Prop :=
  match ev with
  | EvWrite _ _ f _ => f = frame
  | _ => True
  end.

Definition no_write (ev : event) : Prop := is_write_event ev = false.

(** The exception that ends an attempt, if one does. *)
Definition attempt_error (cfg : config) (id : nat) (a : attempt) : option exn :=
  match (run_attempt cfg id a).2 with
  | Raise e => Some e
  | Ok _ => None
  end.

(** ** Scenarios *)

(** A transport on which every connect fails with the same error. *)
Definition refusing_attempt : attempt :=
  mkAttempt (Some (BleakError 1)) false None NoRegistry None None.

(** A fresh object after [_start_loop_thread]. *)
Definition fresh_world : world :=
  mkWorld (mkSession true None None false None false) 0 0 [].

(** A lamp that accepts the connection and offers the write
    characteristic without response. *)
Definition accepting_attempt : attempt :=
  mkAttempt None false None
            (Characteristic ["write-without-response"; "write"]%string)
            None None.

(** The first write is lost, every later one goes through. *)
Definition first_write_fails (n : nat) : option exn :=
  match n with
  | O => Some (BleakError 7)
  | S _ => None
  end.

(** An object connected by its first attempt, nothing written yet. *)
Definition connected_world : world :=
  mkWorld
    (mkSession true (Some (mkBleakClient 0 true))
       (Some (mk_WriteConfig DEFAULT_SERVICE_UUID DEFAULT_WRITE_UUID false))
       false None false)
    1 0 [EvConnect 0; EvStartNotify 0].

(** [_build_command(0x01, b"\x01")]: the power-on frame. *)
Definition power_on_frame : list Z := [0x55; 0x01; 0xFF; 0x06; 0x01; 0xA3].

(** A lamp whose control service is not in the registry. *)
Definition serviceless_attempt : attempt :=
  mkAttempt None false None NoService None None.

(** A new object, before [connect()]. *)
Definition unstarted_world : world :=
  mkWorld (mkSession false None None false None false) 0 0 [].

(** * Facts and claims *)

(** ** Facts about bytes and sums *)

Lemma sum_from (l : list Z) (a : Z) : fold_left Z.add l a = a + sum l.
Proof.
  unfold sum. revert a.
  induction l as [|x l IH]; intros a; simpl.
  - lia.
  - rewrite (IH (a + x)), (IH (0 + x)). lia.
Qed.

Lemma sum_cons (x : Z) (l : list Z) : sum (x :: l) = x + sum l.
Proof. unfold sum at 1. simpl. rewrite sum_from. lia. Qed.

Lemma sum_app (l k : list Z) : sum (l ++ k) = sum l + sum k.
Proof.
  induction l as [|x l IH]; simpl.
  - unfold sum at 2. simpl. lia.
  - rewrite !sum_cons, IH. lia.
Qed.

Lemma land_255_mod (x : Z) : Z.land x 0xFF = x mod 256.
Proof. change 0xFF with (Z.ones 8). rewrite Z.land_ones by lia. reflexivity. Qed.

Lemma land_65535_mod (x : Z) : Z.land x 0xFFFF = x mod 65536.
Proof. change 0xFFFF with (Z.ones 16). rewrite Z.land_ones by lia. reflexivity. Qed.

Lemma checksum_ff_byte (s : Z) : is_byte (_checksum_ff s).
Proof.
  unfold _checksum_ff, is_byte. rewrite !land_255_mod.
  pose proof (Z.mod_pos_bound (255 - s mod 256) 256). lia.
Qed.

(** The checksum completes any partial sum to [0xFF] modulo 256. *)
Lemma checksum_ff_completes (s : Z) : (s + _checksum_ff s) mod 256 = 255.
Proof.
  unfold _checksum_ff. rewrite !land_255_mod.
  pose proof (Z.mod_pos_bound s 256 ltac:(lia)) as Hs.
  rewrite (Z.mod_small (255 - s mod 256)) by lia.
  rewrite Z.add_mod by lia.
  rewrite (Z.mod_small (255 - s mod 256)) by lia.
  replace (s mod 256 + (255 - s mod 256)) with 255 by lia.
  reflexivity.
Qed.

Lemma build_command_frame (cmd : Z) (payload : list Z) :
  5 + len payload <= 255 ->
  _build_command cmd (Some payload) = Ok (frame_of cmd payload).
Proof.
  intros Hlen. unfold _build_command, frame_of, len in *. simpl default.
  destruct (Z.ltb_spec 255 (5 + Z.of_nat (length payload))) as [?|_]; [lia|].
  replace (Z.to_nat (5 + Z.of_nat (length payload)))
    with (S (S (S (S (S (length payload)))))) by lia.
  cbn [replicate]. cbn [list_insert insert take drop app].
  replace (4 + length payload)%nat with (S (S (S (S (length payload))))) by lia.
  cbn [drop].
  assert (Hdrop : drop (length payload) (0 :: replicate (length payload) 0) = [0]).
  { generalize (length payload) as n.
    induction n as [|n IH]; [reflexivity|]. simpl. simpl in IH.
    destruct n; [reflexivity|]. exact IH. }
  rewrite Hdrop. clear Hdrop.
  set (hd := Z.land cmd 255).
  set (ln := Z.land (5 + Z.of_nat (length payload)) 255).
  assert (Hlenf : length (85 :: hd :: 255 :: ln :: payload ++ [0])
                  = S (S (S (S (S (length payload)))))).
  { simpl. rewrite length_app. simpl. lia. }
  rewrite Hlenf.
  replace (S (S (S (S (S (length payload))))) - 1)%nat
    with (length (85 :: hd :: 255 :: ln :: payload)) by (simpl; lia).
  change (85 :: hd :: 255 :: ln :: payload ++ [0])
    with ((85 :: hd :: 255 :: ln :: payload) ++ [0]).
  rewrite take_app_length.
  rewrite insert_app_r_alt by lia.
  rewrite Nat.sub_diag. reflexivity.
Qed.

Lemma build_command_none (cmd : Z) :
  _build_command cmd None = _build_command cmd (Some []).
Proof. reflexivity. Qed.

(** The frame is a byte string whenever the payload is one. *)
Lemma frame_of_bytes (cmd : Z) (payload : list Z) :
  is_bytes payload -> is_bytes (frame_of cmd payload).
Proof.
  intros Hpay. unfold frame_of, is_bytes. cbv zeta.
  assert (Hland : forall x, is_byte (Z.land x 0xFF)).
  { intros x. unfold is_byte. rewrite land_255_mod.
    pose proof (Z.mod_pos_bound x 256). lia. }
  apply Forall_app. split.
  - repeat (apply Forall_cons; split); try apply Hland; try exact Hpay;
      unfold is_byte; lia.
  - apply Forall_cons. split; [apply checksum_ff_byte|apply Forall_nil; exact I].
Qed.

(** ** Claims on [_build_command] *)

(** C1: for a command byte [cmd] and a payload with
    [5 + len(payload) <= 255], [_build_command] returns a frame of length
    [5 + len(payload)] whose byte 0 is 0x55, byte 1 is [cmd], byte 2 (seq)
    is 0xFF, byte 3 is the total frame length, and whose byte sum modulo
    256 is 0xFF. *)
Theorem build_command_layout (cmd : Z) (payload : list Z) :
  is_byte cmd ->
  5 + len payload <= 255 ->
  exists frame,
    _build_command cmd (Some payload) = Ok frame /\
    len frame = 5 + len payload /\
    byte_at frame 0 = 0x55 /\
    byte_at frame 1 = cmd /\
    byte_at frame 2 = 0xFF /\
    byte_at frame 3 = len frame /\
    Z.land (sum frame) 0xFF = 0xFF.
Proof.
  intros Hcmd Hlen. exists (frame_of cmd payload).
  split; [apply build_command_frame; exact Hlen|].
  assert (Hl : len (frame_of cmd payload) = 5 + len payload).
  { unfold frame_of, len. rewrite !length_app. simpl. lia. }
  unfold is_byte in Hcmd.
  repeat split.
  - exact Hl.
  - unfold frame_of, byte_at. simpl. rewrite land_255_mod.
    apply Z.mod_small. lia.
  - rewrite Hl. unfold frame_of, byte_at. simpl. rewrite land_255_mod.
    apply Z.mod_small. unfold len in *. lia.
  - unfold frame_of. cbv zeta. rewrite sum_app.
    replace (sum [_checksum_ff _]) with
      (_checksum_ff (sum ([85; Z.land cmd 255; 255;
                           Z.land (5 + len payload) 255] ++ payload))).
    + rewrite land_255_mod. apply checksum_ff_completes.
    + unfold sum at 3. simpl. reflexivity.
Qed.

Lemma build_command_layout_witness :
  exists frame,
    _build_command 0x01 (Some [0x01]) = Ok frame /\
    len frame = 5 + len [0x01] /\
    byte_at frame 0 = 0x55 /\
    byte_at frame 1 = 0x01 /\
    byte_at frame 2 = 0xFF /\
    byte_at frame 3 = len frame /\
    Z.land (sum frame) 0xFF = 0xFF.
Proof.
  apply (build_command_layout 0x01 [0x01]).
  - unfold is_byte. lia.
  - unfold len. simpl. lia.
Defined.

(** C2: [_build_command] fails, with the length error, exactly when
    [5 + len(payload) > 255], and returns a frame exactly when
    [5 + len(payload) <= 255]; an absent payload counts as the empty one. *)
Theorem build_command_fails_iff_too_long (cmd : Z) (payload : option (list Z)) :
  let flen := 5 + len (default [] payload) in
  ((exists e, _build_command cmd payload = Raise e) <-> flen > 255) /\
  ((exists frame, _build_command cmd payload = Ok frame) <-> flen <= 255) /\
  (forall e, _build_command cmd payload = Raise e -> e = ValueError flen).
Proof.
  cbv zeta.
  assert (Hcases :
    (5 + len (default [] payload) > 255 /\
     _build_command cmd payload = Raise (ValueError (5 + len (default [] payload))))
    \/ (5 + len (default [] payload) <= 255 /\
        exists frame, _build_command cmd payload = Ok frame)).
  { destruct (Z_le_gt_dec (5 + len (default [] payload)) 255) as [Hle|Hgt].
    - right. split; [exact Hle|].
      exists (frame_of cmd (default [] payload)).
      destruct payload as [p|]; [|rewrite build_command_none];
        apply build_command_frame; exact Hle.
    - left. split; [exact Hgt|].
      unfold _build_command.
      destruct (Z.ltb_spec 255 (5 + len (default [] payload))); [reflexivity|lia]. }
  destruct Hcases as [[Hgt Hr]|[Hle [frame Hr]]]; rewrite Hr.
  - split; [|split].
    + split; [intros _; exact Hgt|intros _; eexists; reflexivity].
    + split; [intros [f Hf]; discriminate Hf|intros; lia].
    + intros e He. injection He as <-. reflexivity.
  - split; [|split].
    + split; [intros [e He]; discriminate He|intros; lia].
    + split; [intros _; exact Hle|intros _; eexists; reflexivity].
    + intros e He. discriminate He.
Qed.

(** ** Facts about the colour payload *)

Lemma clamp_int_range (x lo hi : Z) : lo <= hi -> lo <= _clamp_int x lo hi <= hi.
Proof.
  intros Hle. unfold _clamp_int.
  destruct (Z.ltb_spec x lo); [lia|].
  destruct (Z.ltb_spec hi x); lia.
Qed.

Lemma clamp_int_id (x lo hi : Z) : lo <= x <= hi -> _clamp_int x lo hi = x.
Proof.
  intros Hx. unfold _clamp_int.
  destruct (Z.ltb_spec x lo); [lia|].
  destruct (Z.ltb_spec hi x); lia.
Qed.

Lemma u16_be_bytes (v : Z) :
  0 <= v <= 65535 -> _u16_be v = [v / 256; v mod 256].
Proof.
  intros Hv. unfold _u16_be.
  rewrite land_65535_mod, !land_255_mod, (Z.mod_small v 65536) by lia.
  rewrite Z.shiftr_div_pow2 by lia. change (2 ^ 8) with 256.
  rewrite (Z.mod_small (v / 256)); [reflexivity|].
  split; [apply Z.div_pos; lia|].
  apply Z.div_lt_upper_bound; lia.
Qed.

(** [int(x)] raises only on nan and the infinities. *)
Lemma float_to_int_finite (x : float) :
  is_finite x = true -> exists z, float_to_int x = Some z.
Proof.
  unfold is_finite, float_to_int, Prim2SF. intros Hfin.
  destruct (PrimFloat.is_nan x); [discriminate Hfin|].
  destruct (PrimFloat.is_zero x); [eexists; reflexivity|].
  destruct (PrimFloat.is_infinity x); [discriminate Hfin|].
  destruct (Z.frexp x) as [m e].
  destruct (shr_fexp prec emax (Uint63Axioms.to_Z (normfr_mantissa m))
              (e - prec) loc_Exact) as [shr e'].
  destruct (shr_m shr); eexists; reflexivity.
Qed.

Lemma all_from_spec (p : Z -> bool) (n : nat) (z : Z) :
  all_from n z p = true ->
  forall x, z <= x < z + Z.of_nat n -> p x = true.
Proof.
  revert z. induction n as [|n IH]; intros z Hall x Hx.
  - lia.
  - cbn [all_from] in Hall. apply andb_prop in Hall as [Hz Hrest].
    destruct (Z.eq_dec x z) as [->|Hne]; [exact Hz|].
    apply (IH (z + 1) Hrest). lia.
Qed.

Lemma zrange_lookup (n : nat) :
  forall (z : Z) (i : nat), (i < n)%nat -> zrange n z !! i = Some (z + Z.of_nat i).
Proof.
  induction n as [|n IH]; intros z i Hi; [lia|].
  destruct i as [|i]; cbn [zrange lookup list_lookup].
  - f_equal. lia.
  - change (zrange n (z + 1) !! i = Some (z + Z.of_nat (S i))).
    rewrite IH by lia. f_equal. lia.
Qed.

(** All 65,536 pairs of channel values are evaluated. *)
Lemma pair_check_all :
  all_from 256 0 (fun i => all_from 256 0 (fun j => pair_check i j)) = true.
Proof. vm_cast_no_check (eq_refl true). Qed.

Lemma pair_check_channels (i j : Z) :
  0 <= i <= 255 -> 0 <= j <= 255 -> pair_check i j = true.
Proof.
  intros Hi Hj.
  pose proof (all_from_spec _ _ _ pair_check_all i ltac:(lia)) as Hrow.
  cbv beta in Hrow.
  exact (all_from_spec _ _ _ Hrow j ltac:(lia)).
Qed.

Lemma channel_ltb (i j : Z) :
  0 <= i <= 255 -> 0 <= j <= 255 -> (channel i <? channel j)%float = (i <? j).
Proof.
  intros Hi Hj. pose proof (pair_check_channels i j Hi Hj) as Hc.
  unfold pair_check in Hc.
  apply andb_prop in Hc as [Hc _]. apply andb_prop in Hc as [Hc _].
  apply Bool.eqb_prop. exact Hc.
Qed.

Lemma channel_eqb (i j : Z) :
  0 <= i <= 255 -> 0 <= j <= 255 -> (channel i =? channel j)%float = (i =? j).
Proof.
  intros Hi Hj. pose proof (pair_check_channels i j Hi Hj) as Hc.
  unfold pair_check in Hc.
  apply andb_prop in Hc as [Hc _]. apply andb_prop in Hc as [_ Hc].
  apply Bool.eqb_prop. exact Hc.
Qed.

Lemma channel_saturation (i j : Z) :
  0 <= j < i -> i <= 255 ->
  exists s, float_div (channel i - channel j) (channel i) = Some s /\
            is_finite (s * 1000)%float = true.
Proof.
  intros Hj Hi. pose proof (pair_check_channels i j ltac:(lia) ltac:(lia)) as Hc.
  unfold pair_check in Hc. apply andb_prop in Hc as [_ Hc].
  destruct (Z.ltb_spec j i) as [_|?]; [|lia].
  destruct (float_div (channel i - channel j) (channel i)) as [s|];
    [|discriminate Hc].
  exists s. split; [reflexivity|exact Hc].
Qed.

(** The difference of two channel floats is in the table of their
    distance. *)
Lemma lag_diffs_elem (k j : nat) :
  (j + k < 256)%nat ->
  (channel (Z.of_nat (j + k)) - channel (Z.of_nat j))%float ∈ lag_diffs channels k.
Proof.
  intros Hjk. unfold lag_diffs. apply elem_of_remove_dups.
  apply (list_elem_of_lookup_2 _ j).
  rewrite lookup_zip_with, lookup_drop. unfold channels.
  rewrite !list_lookup_fmap, !zrange_lookup by lia.
  replace (0 + Z.of_nat (k + j)%nat) with (Z.of_nat (j + k)) by lia.
  rewrite Z.add_0_l. reflexivity.
Qed.

Lemma quot_tables_ok_spec (tables : list (list float)) :
  forall (acc : list float),
    quot_tables_ok tables acc = true ->
    forall (i : nat) (di : list float) (d2 dx : float),
      tables !! i = Some di ->
      d2 ∈ di ->
      (dx ∈ acc \/
       exists (j : nat) (dj : list float),
         (j <= i)%nat /\ tables !! j = Some dj /\ dx ∈ dj) ->
      quot_ok d2 dx = true.
Proof.
  induction tables as [|dk rest IH]; intros acc Hok i di d2 dx Hi Hd2 Hdx.
  - discriminate Hi.
  - cbn [quot_tables_ok] in Hok. apply andb_prop in Hok as [Hhere Hrest].
    destruct i as [|i].
    + injection Hi as <-.
      assert (Hin : dx ∈ dk ++ acc).
      { apply elem_of_app. destruct Hdx as [Hacc|(j & dj & Hj & Hlk & Hin)].
        - right. exact Hacc.
        - left. destruct j; [|lia]. injection Hlk as <-. exact Hin. }
      pose proof (proj1 (forallb_forall _ _) Hhere d2
                    (proj1 (list_elem_of_In _ _) Hd2)) as Hrow.
      exact (proj1 (forallb_forall _ _) Hrow dx (proj1 (list_elem_of_In _ _) Hin)).
    + apply (IH (dk ++ acc) Hrest i di d2 dx Hi Hd2).
      destruct Hdx as [Hacc|(j & dj & Hj & Hlk & Hin)].
      * left. apply elem_of_app. right. exact Hacc.
      * destruct j as [|j].
        -- left. apply elem_of_app. left. injection Hlk as <-. exact Hin.
        -- right. exists j, dj. split; [lia|]. split; assumption.
Qed.

(** The check over the tables of differences, one for each distance of
    two channel values (772 floats in all): the ranges are the differences
    at the distances 1 to 255, and the differences at distance 0 start as
    the accumulator.  About 300,000 pairs of differences stand for the
    16,777,216 channel triples. *)
Lemma quot_check_all :
  quot_tables_ok (lag_diffs channels <$> seq 1 255) (lag_diffs channels 0) = true.
Proof. vm_cast_no_check (eq_refl true). Qed.

Lemma float_max3_channel (r g b : Z) :
  0 <= r <= 255 -> 0 <= g <= 255 -> 0 <= b <= 255 ->
  exists M, float_max3 (channel r) (channel g) (channel b) = channel M /\
            (M = r \/ M = g \/ M = b) /\ r <= M /\ g <= M /\ b <= M.
Proof.
  intros Hr Hg Hb. unfold float_max3.
  rewrite (channel_ltb r g) by assumption.
  destruct (Z.ltb_spec r g).
  - rewrite (channel_ltb g b) by assumption.
    destruct (Z.ltb_spec g b); eexists; (split; [reflexivity|lia]).
  - rewrite (channel_ltb r b) by assumption.
    destruct (Z.ltb_spec r b); eexists; (split; [reflexivity|lia]).
Qed.

Lemma float_min3_channel (r g b : Z) :
  0 <= r <= 255 -> 0 <= g <= 255 -> 0 <= b <= 255 ->
  exists m, float_min3 (channel r) (channel g) (channel b) = channel m /\
            (m = r \/ m = g \/ m = b) /\ m <= r /\ m <= g /\ m <= b.
Proof.
  intros Hr Hg Hb. unfold float_min3.
  rewrite (channel_ltb g r) by assumption.
  destruct (Z.ltb_spec g r).
  - rewrite (channel_ltb b g) by assumption.
    destruct (Z.ltb_spec b g); eexists; (split; [reflexivity|lia]).
  - rewrite (channel_ltb b r) by assumption.
    destruct (Z.ltb_spec b r); eexists; (split; [reflexivity|lia]).
Qed.

(** The quotient of a channel [c] between the minimum [m] and the maximum
    [M]. *)
Lemma channel_quotient (M m c : Z) :
  0 <= m < M -> M <= 255 -> m <= c <= M ->
  quot_ok (channel M - channel m) (channel M - channel c) = true.
Proof.
  intros Hm HM Hc.
  pose proof quot_check_all as Hall.
  assert (Hrest : forall k, (k < 255)%nat ->
            (lag_diffs channels <$> seq 1 255) !! k
            = Some (lag_diffs channels (S k))).
  { intros k Hk. rewrite list_lookup_fmap, lookup_seq_lt by exact Hk.
    reflexivity. }
  assert (Hdiff : forall x, m <= x <= M ->
            (channel M - channel x)%float
            ∈ lag_diffs channels (Z.to_nat (M - x))).
  { intros x Hx.
    pose proof (lag_diffs_elem (Z.to_nat (M - x)) (Z.to_nat x) ltac:(lia)) as He.
    replace (Z.of_nat (Z.to_nat x + Z.to_nat (M - x))) with M in He by lia.
    replace (Z.of_nat (Z.to_nat x)) with x in He by lia.
    exact He. }
  apply (quot_tables_ok_spec _ _ Hall (Z.to_nat (M - m) - 1)
           (lag_diffs channels (Z.to_nat (M - m)))).
  - rewrite Hrest by lia. do 2 f_equal. lia.
  - apply Hdiff. lia.
  - destruct (Z.eq_dec c M) as [->|Hne].
    + left. replace 0%nat with (Z.to_nat (M - M)) by lia.
      apply Hdiff. lia.
    + right. exists (Z.to_nat (M - c) - 1)%nat, (lag_diffs channels (Z.to_nat (M - c))).
      split; [lia|]. split.
      * rewrite Hrest by lia. do 2 f_equal. lia.
      * apply Hdiff. lia.
Qed.

Lemma pair_ok_hues (a b : float) :
  pair_ok a b = true ->
  hue_ok (a - b)%float = true /\ hue_ok (2 + a - b)%float = true
  /\ hue_ok (4 + a - b)%float = true.
Proof.
  unfold pair_ok. intros H.
  apply andb_prop in H as [H H4]. apply andb_prop in H as [H0 H2].
  repeat split; assumption.
Qed.

Lemma hsv_finite_channels (r g b : Z) :
  0 <= r <= 255 -> 0 <= g <= 255 -> 0 <= b <= 255 -> hsv_finite r g b = true.
Proof.
  intros Hr Hg Hb.
  destruct (float_max3_channel r g b Hr Hg Hb) as (M & HM & HMin & HrM & HgM & HbM).
  destruct (float_min3_channel r g b Hr Hg Hb) as (m & Hm & Hmin & Hmr & Hmg & Hmb).
  unfold hsv_finite, channel_hsv, rgb_to_hsv. cbv zeta. rewrite HM, Hm.
  rewrite (channel_eqb m M) by lia.
  destruct (Z.eqb_spec m M) as [Heq|Hne]; [vm_compute; reflexivity|].
  destruct (channel_saturation M m ltac:(lia) ltac:(lia)) as (s & Hs & Hsfin).
  rewrite Hs. cbn [mbind option_bind].
  assert (Hq : forall c, m <= c <= M ->
            exists qc q1,
              float_div (channel M - channel c) (channel M - channel m) = Some qc /\
              float_div (channel M - channel m) (channel M - channel m) = Some q1 /\
              pair_ok qc q1 = true /\ pair_ok q1 qc = true).
  { intros c Hc.
    pose proof (channel_quotient M m c ltac:(lia) ltac:(lia) Hc) as Hok.
    unfold quot_ok in Hok.
    destruct (float_div (channel M - channel c) (channel M - channel m)) as [qc|];
      [|discriminate Hok].
    destruct (float_div (channel M - channel m) (channel M - channel m)) as [q1|];
      [|discriminate Hok].
    apply andb_prop in Hok as [H1 H2]. exists qc, q1. repeat split; assumption. }
  destruct (Hq r ltac:(lia)) as (qr & q1 & Hqr & Hq1 & Hr1 & Hr2).
  destruct (Hq g ltac:(lia)) as (qg & q1g & Hqg & Hq1g & Hg1 & Hg2).
  destruct (Hq b ltac:(lia)) as (qb & q1b & Hqb & Hq1b & Hb1 & Hb2).
  rewrite Hq1 in Hq1g, Hq1b. injection Hq1g as <-. injection Hq1b as <-.
  rewrite Hqr, Hqg, Hqb. cbn [mbind option_bind].
  rewrite (channel_eqb r M), (channel_eqb g M) by lia.
  rewrite Hsfin, andb_true_r.
  apply pair_ok_hues in Hr1 as (Hr1a & Hr1b & Hr1c).
  apply pair_ok_hues in Hr2 as (Hr2a & Hr2b & Hr2c).
  apply pair_ok_hues in Hg1 as (Hg1a & Hg1b & Hg1c).
  apply pair_ok_hues in Hg2 as (Hg2a & Hg2b & Hg2c).
  apply pair_ok_hues in Hb1 as (Hb1a & Hb1b & Hb1c).
  apply pair_ok_hues in Hb2 as (Hb2a & Hb2b & Hb2c).
  assert (Hmin_q : (m = r /\ qr = q1) \/ (m = g /\ qg = q1) \/ (m = b /\ qb = q1)).
  { destruct Hmin as [->|[->| ->]]; [left|right; left|right; right];
      (split; [reflexivity|congruence]). }
  unfold hue_ok in *.
  destruct (Z.eqb_spec r M) as [HrM'|HrM'].
  - destruct Hmin_q as [[? _]|[[_ ->]|[_ ->]]]; [lia|assumption|assumption].
  - destruct (Z.eqb_spec g M) as [HgM'|HgM'].
    + destruct Hmin_q as [[_ ->]|[[? _]|[_ ->]]]; [assumption|lia|assumption].
    + destruct Hmin_q as [[_ ->]|[[_ ->]|[? _]]]; [assumption|assumption|lia].
Qed.

(** ** Claims on the colour payload *)

(** C3, as the source has it: for all integers [r], [g], [b] the payload
    builder clamps each channel to [0, 255], converts the clamped channels
    by [colorsys.rgb_to_hsv] (never failing), and returns four bytes: the hue
    [int(h * 360) % 360], in [0, 360), as a big-endian u16, then the
    saturation [int(s * 1000)] (truncated, not rounded) clamped to
    [0, 1000] as a big-endian u16.  The value component does not enter the
    result: any input with the same hue and saturation yields the same
    payload, whatever its value. *)
Theorem rgb_to_hue_sat_payload_truncates (r g b : Z) :
  let rc := _clamp_int r 0 255 in
  let gc := _clamp_int g 0 255 in
  let bc := _clamp_int b 0 255 in
  exists h s v hi si,
    channel_hsv rc gc bc = Some (h, s, v) /\
    float_to_int (h * 360)%float = Some hi /\
    float_to_int (s * 1000)%float = Some si /\
    let hue := hi mod 360 in
    let sat := _clamp_int si 0 1000 in
    0 <= hue < 360 /\
    0 <= sat <= 1000 /\
    _rgb_to_hue_sat_payload r g b
      = Some [hue / 256; hue mod 256; sat / 256; sat mod 256] /\
    (forall r2 g2 b2 v2,
        channel_hsv (_clamp_int r2 0 255) (_clamp_int g2 0 255)
                    (_clamp_int b2 0 255) = Some (h, s, v2) ->
        _rgb_to_hue_sat_payload r2 g2 b2 = _rgb_to_hue_sat_payload r g b).
Proof.
  intros rc gc bc.
  pose proof (hsv_finite_channels rc gc bc
                (clamp_int_range r 0 255 ltac:(lia))
                (clamp_int_range g 0 255 ltac:(lia))
                (clamp_int_range b 0 255 ltac:(lia))) as Hfin.
  unfold hsv_finite in Hfin.
  destruct (channel_hsv rc gc bc) as [[[h s] v]|] eqn:Hhsv; [|discriminate Hfin].
  apply andb_prop in Hfin as [Hh Hs].
  destruct (float_to_int_finite _ Hh) as [hi Hhi].
  destruct (float_to_int_finite _ Hs) as [si Hsi].
  exists h, s, v, hi, si.
  split; [reflexivity|]. split; [exact Hhi|]. split; [exact Hsi|].
  cbv zeta.
  pose proof (Z.mod_pos_bound hi 360 ltac:(lia)) as Hhue.
  pose proof (clamp_int_range si 0 1000 ltac:(lia)) as Hsat.
  assert (Hbytes : hue_sat_bytes h s
            = Some [hi mod 360 / 256; hi mod 360 mod 256;
                    _clamp_int si 0 1000 / 256; _clamp_int si 0 1000 mod 256]).
  { unfold hue_sat_bytes. rewrite Hhi, Hsi. cbn [mbind option_bind].
    rewrite !u16_be_bytes by lia. reflexivity. }
  split; [exact Hhue|]. split; [exact Hsat|]. split.
  - unfold _rgb_to_hue_sat_payload. fold rc gc bc. rewrite Hhsv.
    cbn [mbind option_bind]. exact Hbytes.
  - intros r2 g2 b2 v2 Hhsv2.
    unfold _rgb_to_hue_sat_payload. fold rc gc bc. rewrite Hhsv, Hhsv2.
    reflexivity.
Qed.

(** The claim as worded (saturation rounded) fails on the colour of the
    module's own usage example: [s * 1000] is 803.92..., which the source
    truncates to 803 and rounding takes to 804. *)
Lemma rgb_to_hue_sat_payload_not_rounded :
  _rgb_to_hue_sat_payload 255 100 50 = Some [0; 14; 3; 35] /\
  encode_color_spec 255 100 50 = Some [0; 14; 3; 36] /\
  _rgb_to_hue_sat_payload 255 100 50 <> encode_color_spec 255 100 50.
Proof.
  split; [vm_compute; reflexivity|].
  split; [vm_compute; reflexivity|].
  vm_compute. discriminate.
Qed.

(** Pure red at full and at half value: same hue and saturation, different
    value, same payload. *)
Example red_payload_ignores_value :
  (c1 ← channel_hsv 255 0 0;
   c2 ← channel_hsv 128 0 0;
   let '(h1, s1, v1) := c1 in
   let '(h2, s2, v2) := c2 in
   Some ((h1 =? h2)%float && (s1 =? s2)%float, (v1 =? v2)%float))
    = Some (true, false) /\
  _rgb_to_hue_sat_payload 255 0 0 = Some [0; 0; 3; 232] /\
  _rgb_to_hue_sat_payload 128 0 0 = Some [0; 0; 3; 232].
Proof. repeat split; vm_compute; reflexivity. Qed.

(** ** Facts about the brightness payload and notifications *)

(** A big-endian u16 read back with shift and or. *)
Lemma u16_be_decode (v : Z) :
  Z.lor (Z.shiftl (v / 256) 8) (v mod 256) = v.
Proof.
  apply Z.bits_inj'. intros n Hn.
  rewrite Z.lor_spec, Z.shiftl_spec by lia.
  change 256 with (2 ^ 8).
  destruct (Z.lt_ge_cases n 8) as [Hlo|Hhi].
  - rewrite Z.testbit_neg_r by lia.
    rewrite Z.mod_pow2_bits_low by lia. reflexivity.
  - rewrite Z.div_pow2_bits by lia.
    rewrite Z.mod_pow2_bits_high by lia.
    rewrite orb_false_r. f_equal. lia.
Qed.

Lemma brightness_value_exact (percent : Z) :
  0 <= percent <= 100 -> brightness_value percent = (percent + 5) * 10.
Proof. intros Hp. unfold brightness_value. apply clamp_int_id. lia. Qed.

Lemma parse_state_cons (x : Z) (l : list Z) :
  6 <= len (x :: l) ->
  Z.land (sum (x :: l)) 0xFF = 0xFF ->
  x = 0x56 ->
  _parse_state (Some (x :: l))
  = mkHexagonState
      (Some (negb (byte_at (x :: l) 4 =? 0)))
      (if 8 <=? len (x :: l) then
         in_percent_range
           (Z.lor (Z.shiftl (byte_at (x :: l) 5) 8) (byte_at (x :: l) 6) / 10 - 5)
       else None)
      (Some (x :: l)).
Proof.
  intros Hlen Hsum ->. unfold _parse_state.
  destruct (Z.ltb_spec (len (86 :: l)) 6) as [?|_]; [lia|].
  rewrite Hsum. reflexivity.
Qed.

(** ** Claims on [_parse_state] and the brightness encoding *)

(** C6: on an input that is empty, shorter than 6 bytes, or whose byte sum
    modulo 256 is not 0xFF, [_parse_state] returns a state whose [is_on] and
    [brightness_percent] are unknown, and which keeps the raw bytes whenever
    the input has at least one byte. *)
Theorem parse_state_rejects_invalid (data : list Z) :
  data = [] \/ len data < 6 \/ Z.land (sum data) 0xFF <> 0xFF ->
  is_on (_parse_state (Some data)) = None /\
  brightness_percent (_parse_state (Some data)) = None /\
  (1 <= len data -> raw (_parse_state (Some data)) = Some data).
Proof.
  intros Hbad. unfold _parse_state.
  destruct data as [|x l]; [repeat split; unfold len; simpl; lia|].
  destruct (Z.ltb_spec (len (x :: l)) 6) as [Hshort|Hlong];
    [repeat split|].
  destruct (Z.eqb_spec (Z.land (sum (x :: l)) 255) 255) as [Hsum|Hsum];
    [|repeat split].
  destruct Hbad as [Hnil|[Hlt|Hne]]; [discriminate Hnil|lia|contradiction].
Qed.

Lemma parse_state_rejects_invalid_witness :
  is_on (_parse_state (Some [0x55; 0x01; 0xFF; 0x06; 0x01; 0x00])) = None /\
  brightness_percent (_parse_state (Some [0x55; 0x01; 0xFF; 0x06; 0x01; 0x00])) = None /\
  (1 <= len [0x55; 0x01; 0xFF; 0x06; 0x01; 0x00] ->
   raw (_parse_state (Some [0x55; 0x01; 0xFF; 0x06; 0x01; 0x00]))
   = Some [0x55; 0x01; 0xFF; 0x06; 0x01; 0x00]).
Proof.
  apply (parse_state_rejects_invalid [0x55; 0x01; 0xFF; 0x06; 0x01; 0x00]).
  right. right. vm_compute. discriminate.
Defined.

(** An absent notification ([raw is None]) parses to the all-unknown state. *)
Lemma parse_state_none : _parse_state None = mkHexagonState None None None.
Proof. reflexivity. Qed.

(** C7: the 19-byte TG609 sync frame
    [5600ff060100be0008177f0008177f00505009] parses to [is_on] true,
    brightness 14 percent, and [raw] the input bytes. *)
Theorem parse_state_tg609_sync_frame :
  _parse_state (Some tg609_sync_frame)
  = mkHexagonState (Some true) (Some 14) (Some tg609_sync_frame).
Proof. vm_compute. reflexivity. Qed.

(** C10: for every percent in [0, 100] the wire value is
    [(percent + 5) * 10], the 0x56 rule [(value // 10) - 5] takes it back to
    [percent], which is inside the accepted range, and so a checksum-valid
    0x56 notification of at least 8 bytes that carries the brightness payload
    at bytes 5 and 6 parses to that [percent]. *)
Theorem brightness_round_trip (percent : Z) (data : list Z) :
  0 <= percent <= 100 ->
  8 <= len data ->
  byte_at data 0 = 0x56 ->
  Z.land (sum data) 0xFF = 0xFF ->
  [byte_at data 5; byte_at data 6] = brightness_payload percent ->
  brightness_value percent = (percent + 5) * 10 /\
  brightness_value percent / 10 - 5 = percent /\
  in_percent_range (brightness_value percent / 10 - 5) = Some percent /\
  brightness_percent (_parse_state (Some data)) = Some percent.
Proof.
  intros Hp Hlen Hhead Hsum Hwire.
  pose proof (brightness_value_exact percent Hp) as Hval.
  assert (Hdec : brightness_value percent / 10 - 5 = percent).
  { rewrite Hval, Z.div_mul by lia. lia. }
  assert (Hrange : in_percent_range (brightness_value percent / 10 - 5)
                   = Some percent).
  { rewrite Hdec. unfold in_percent_range.
    destruct (Z.leb_spec 0 percent); [|lia].
    destruct (Z.leb_spec percent 100); [reflexivity|lia]. }
  split; [exact Hval|]. split; [exact Hdec|]. split; [exact Hrange|].
  destruct data as [|x l]; [unfold len in Hlen; simpl in Hlen; lia|].
  rewrite parse_state_cons; [|lia|exact Hsum|exact Hhead].
  cbn [brightness_percent].
  destruct (Z.leb_spec 8 (len (x :: l))) as [_|?]; [|lia].
  unfold brightness_payload in Hwire.
  rewrite u16_be_bytes in Hwire by lia.
  injection Hwire as -> ->.
  rewrite u16_be_decode. exact Hrange.
Qed.

Lemma brightness_round_trip_witness :
  brightness_value 80 = (80 + 5) * 10 /\
  brightness_value 80 / 10 - 5 = 80 /\
  in_percent_range (brightness_value 80 / 10 - 5) = Some 80 /\
  brightness_percent
    (_parse_state (Some [0x56; 0x00; 0xFF; 0x06; 0x01; 0x03; 0x52; 0x4E]))
  = Some 80.
Proof.
  apply (brightness_round_trip 80 [0x56; 0x00; 0xFF; 0x06; 0x01; 0x03; 0x52; 0x4E]).
  - lia.
  - vm_compute. discriminate.
  - reflexivity.
  - reflexivity.
  - reflexivity.
Defined.

(** ** Facts about scene names *)

Ltac ascii_cases c :=
  destruct c as [[] [] [] [] [] [] [] []]; vm_compute; reflexivity.

Lemma isspace_lower (c : ascii) : char_isspace (char_lower c) = char_isspace c.
Proof. ascii_cases c. Qed.

Lemma isspace_swap (c : ascii) : char_isspace (char_swap c) = char_isspace c.
Proof. ascii_cases c. Qed.

Lemma lower_swap (c : ascii) : char_lower (char_swap c) = char_swap (char_lower c).
Proof. ascii_cases c. Qed.

Lemma norm_space_swap (c : ascii) :
  char_norm (if Ascii.eqb (char_swap c) " " then "_"%char else char_swap c)
  = char_norm (if Ascii.eqb c " " then "_"%char else c).
Proof. ascii_cases c. Qed.

Lemma norm_underscore_swap (c : ascii) :
  char_norm (if Ascii.eqb (char_swap c) "_" then "-"%char else char_swap c)
  = char_norm (if Ascii.eqb c "_" then "-"%char else c).
Proof. ascii_cases c. Qed.

Lemma string_map_map (f g : ascii -> ascii) (s : string) :
  string_map f (string_map g s) = string_map (fun c => f (g c)) s.
Proof. induction s as [|c s IH]; simpl; [reflexivity|]. rewrite IH. reflexivity. Qed.

Lemma string_map_ext (f g : ascii -> ascii) (s : string) :
  (forall c, f c = g c) -> string_map f s = string_map g s.
Proof.
  intros Hfg. induction s as [|c s IH]; simpl; [reflexivity|].
  rewrite IH, Hfg. reflexivity.
Qed.

Section StripMap.
Variable f : ascii -> ascii.
Hypothesis f_space : forall c, char_isspace (f c) = char_isspace c.

Lemma lstrip_map (s : string) :
  str_lstrip (string_map f s) = string_map f (str_lstrip s).
Proof.
  induction s as [|c s IH]; simpl; [reflexivity|].
  rewrite f_space. destruct (char_isspace c); [exact IH|reflexivity].
Qed.

Lemma rstrip_map (s : string) :
  str_rstrip (string_map f s) = string_map f (str_rstrip s).
Proof.
  induction s as [|c s IH]; simpl; [reflexivity|].
  rewrite IH, f_space.
  destruct (str_rstrip s); simpl; [|reflexivity].
  destruct (char_isspace c); reflexivity.
Qed.

Lemma strip_map (s : string) :
  str_strip (string_map f s) = string_map f (str_strip s).
Proof. unfold str_strip. rewrite lstrip_map, rstrip_map. reflexivity. Qed.
End StripMap.

(** The key both lookups start from. *)
Lemma lower_strip_commute (s : string) :
  str_lower (str_strip s) = str_strip (str_lower s).
Proof. unfold str_lower. symmetry. apply strip_map, isspace_lower. Qed.

Lemma lower_strip_swap (s : string) :
  str_lower (str_strip (swap_hyphen_underscore s))
  = swap_hyphen_underscore (str_lower (str_strip s)).
Proof.
  unfold swap_hyphen_underscore, str_lower.
  rewrite (strip_map char_swap isspace_swap), !string_map_map.
  apply string_map_ext, lower_swap.
Qed.

Lemma char_norm_eq (c d : ascii) :
  char_norm c = char_norm d ->
  if is_sep d then c = d \/ c = char_swap d else c = d.
Proof.
  unfold char_norm, is_sep, char_swap.
  destruct (Ascii.eqb_spec c "-") as [->|Hc], (Ascii.eqb_spec d "-") as [->|Hd];
    simpl; intros Heq.
  - left. reflexivity.
  - subst d. simpl. right. reflexivity.
  - subst c. simpl. right. reflexivity.
  - subst d. destruct (Ascii.eqb_spec c "_"); [left|]; assumption || reflexivity.
Qed.

Lemma norm_eq_no_sep (s t : string) :
  string_map char_norm s = string_map char_norm t ->
  count_sep t = 0%nat ->
  s = t /\ swap_hyphen_underscore t = t.
Proof.
  revert t. induction s as [|c s IH]; intros [|d t] Heq Hcnt;
    try discriminate Heq; [split; reflexivity|].
  simpl in Heq, Hcnt. injection Heq as Hc Hs.
  apply char_norm_eq in Hc.
  destruct (is_sep d) eqn:Hd; [discriminate Hcnt|].
  destruct (IH t Hs Hcnt) as [-> Hswap]. subst c.
  split; [reflexivity|].
  unfold swap_hyphen_underscore in *. simpl. rewrite Hswap. f_equal.
  unfold is_sep in Hd. unfold char_swap.
  destruct (Ascii.eqb d "-"); [discriminate Hd|].
  destruct (Ascii.eqb d "_"); [discriminate Hd|]. reflexivity.
Qed.

(** Two names that agree up to the separator, one of them with at most one
    separator, are equal or each other's swap. *)
Lemma norm_eq_one_sep (s t : string) :
  string_map char_norm s = string_map char_norm t ->
  (count_sep t <= 1)%nat ->
  s = t \/ s = swap_hyphen_underscore t.
Proof.
  revert t. induction s as [|c s IH]; intros [|d t] Heq Hcnt;
    try discriminate Heq; [left; reflexivity|].
  simpl in Heq, Hcnt. injection Heq as Hc Hs.
  apply char_norm_eq in Hc.
  destruct (is_sep d) eqn:Hd.
  - destruct (norm_eq_no_sep s t Hs ltac:(lia)) as [-> Hswap].
    unfold swap_hyphen_underscore in *. simpl. rewrite Hswap.
    destruct Hc as [->| ->]; [left|right]; reflexivity.
  - subst c. destruct (IH t Hs ltac:(lia)) as [->| ->]; [left; reflexivity|].
    right. unfold swap_hyphen_underscore. simpl. f_equal.
    unfold is_sep in Hd. unfold char_swap.
    destruct (Ascii.eqb d "-"); [discriminate Hd|].
    destruct (Ascii.eqb d "_"); [discriminate Hd|]. reflexivity.
Qed.

Lemma scene_items_closed : forallb scene_key_closed scene_items = true.
Proof. vm_compute. reflexivity. Qed.

Lemma scene_lookup_closed (key : string) (i : Z) :
  SCENES_TG609 !! key = Some i ->
  (count_sep key <= 1)%nat /\
  SCENES_TG609 !! swap_hyphen_underscore key = Some i.
Proof.
  intros Hkey. apply elem_of_list_to_map_2, list_elem_of_In in Hkey.
  pose proof (proj1 (forallb_forall _ _) scene_items_closed _ Hkey) as Hc.
  unfold scene_key_closed in Hc. apply andb_prop in Hc as [Hcnt Hswap].
  cbn [fst snd] in Hcnt, Hswap.
  apply Nat.leb_le in Hcnt. apply bool_decide_eq_true in Hswap.
  split; assumption.
Qed.

Lemma scene_lookup_norm (s t : string) :
  string_map char_norm s = string_map char_norm t ->
  SCENES_TG609 !! s = SCENES_TG609 !! t.
Proof.
  assert (Hhalf : forall a b i,
    string_map char_norm a = string_map char_norm b ->
    SCENES_TG609 !! b = Some i -> SCENES_TG609 !! a = Some i).
  { intros a b i Heq Hb.
    destruct (scene_lookup_closed b i Hb) as [Hcnt Hswap].
    destruct (norm_eq_one_sep a b Heq Hcnt) as [->| ->]; assumption. }
  intros Heq.
  destruct (SCENES_TG609 !! t) as [i|] eqn:Ht.
  - exact (Hhalf s t i Heq Ht).
  - destruct (SCENES_TG609 !! s) as [i|] eqn:Hs; [|reflexivity].
    rewrite (Hhalf t s i (eq_sym Heq) Hs) in Ht. discriminate Ht.
Qed.

(** Resolution does not depend on letter case ... *)
Lemma resolve_scene_name_case (n1 n2 : string) :
  str_lower n1 = str_lower n2 ->
  resolve_scene_name n1 = resolve_scene_name n2.
Proof.
  intros Hlow. unfold resolve_scene_name.
  rewrite !lower_strip_commute, Hlow. reflexivity.
Qed.

(** ... nor on which of hyphen and underscore the name is written with. *)
Lemma resolve_scene_name_swap (name : string) :
  resolve_scene_name (swap_hyphen_underscore name) = resolve_scene_name name.
Proof.
  unfold resolve_scene_name. rewrite lower_strip_swap.
  set (k := str_lower (str_strip name)).
  assert (H1 : SCENES_TG609 !! str_replace " " "_" (swap_hyphen_underscore k)
               = SCENES_TG609 !! str_replace " " "_" k).
  { apply scene_lookup_norm.
    unfold str_replace, swap_hyphen_underscore. rewrite !string_map_map.
    apply string_map_ext, norm_space_swap. }
  assert (H2 : SCENES_TG609 !! str_replace "_" "-" (swap_hyphen_underscore k)
               = SCENES_TG609 !! str_replace "_" "-" k).
  { apply scene_lookup_norm.
    unfold str_replace, swap_hyphen_underscore. rewrite !string_map_map.
    apply string_map_ext, norm_underscore_swap. }
  rewrite H1, H2. reflexivity.
Qed.

(** ** Claims on the brightness and scene commands *)

(** C4: for every integer [percent], [set_brightness] clamps it to
    [0, 100] and hands [_write_frame] the cmd-0x05 frame whose payload is
    the big-endian u16 of the wire value [(percent + 5) * 10] (which the
    clamp to the u16 range leaves as it is); percent 80 gives wire value 850
    and percent 0 gives 50. *)
Theorem set_brightness_wire_value
    (cfg : config) (cs : nat -> attempt) (ws : nat -> option exn) (percent : Z) :
  let p := _clamp_int percent 0 100 in
  let value := (p + 5) * 10 in
  let frame :=
    [0x55; 0x05; 0xFF; 7; value / 256; value mod 256;
     _checksum_ff (0x55 + 0x05 + 0xFF + 7 + value / 256 + value mod 256)] in
  0 <= p <= 100 /\
  brightness_value p = _clamp_int value 0 0xFFFF /\
  brightness_value p = value /\
  brightness_payload p = [value / 256; value mod 256] /\
  _build_command 0x05 (Some (brightness_payload p)) = Ok frame /\
  (forall w, set_brightness cfg cs ws percent w
             = _run (_write_frame cfg cs ws frame) w) /\
  brightness_value (_clamp_int 80 0 100) = 850 /\
  brightness_value (_clamp_int 0 0 100) = 50.
Proof.
  intros p value frame.
  pose proof (clamp_int_range percent 0 100 ltac:(lia)) as Hp. fold p in Hp.
  pose proof (brightness_value_exact p Hp) as Hval. fold value in Hval.
  assert (Hpay : brightness_payload p = [value / 256; value mod 256]).
  { unfold brightness_payload. rewrite Hval. apply u16_be_bytes.
    subst value. lia. }
  assert (Hbuild : _build_command 0x05 (Some (brightness_payload p)) = Ok frame).
  { rewrite build_command_frame by (rewrite Hpay; unfold len; simpl; lia).
    rewrite Hpay. unfold frame_of, len. cbn [length app].
    change (Z.land 5 255) with 5.
    change (Z.land (5 + Z.of_nat 2) 255) with 7.
    unfold frame.
    replace (sum [85; 5; 255; 7; value / 256; value mod 256])
      with (85 + 5 + 255 + 7 + value / 256 + value mod 256)
      by (unfold sum; simpl; lia).
    reflexivity. }
  split; [exact Hp|]. split; [reflexivity|]. split; [exact Hval|].
  split; [exact Hpay|]. split; [exact Hbuild|]. split.
  - intros w. unfold set_brightness, _set_brightness_async. fold p.
    rewrite Hbuild. reflexivity.
  - split; reflexivity.
Qed.

(** C5: scene names resolve without regard to letter case and to which of
    hyphen and underscore they are written with; ["Green-Jade"] and
    ["green_jade"] resolve to the same index, 71; and a name whose two
    normalised keys are both missing from the table makes
    [set_scene_by_name] raise the unknown-scene error with the object and
    the transport untouched (nothing is sent). *)
Theorem scene_name_resolution
    (cfg : config) (cs : nat -> attempt) (ws : nat -> option exn) :
  resolve_scene_name "Green-Jade" = Some 71 /\
  resolve_scene_name "green_jade" = Some 71 /\
  (forall n1 n2 : string,
      str_lower n1 = str_lower n2 ->
      resolve_scene_name n1 = resolve_scene_name n2) /\
  (forall name : string,
      resolve_scene_name (swap_hyphen_underscore name) = resolve_scene_name name) /\
  (forall (name : string) (speed : option Z) (w : world),
      SCENES_TG609 !! str_replace " " "_" (str_lower (str_strip name)) = None ->
      SCENES_TG609 !! str_replace "_" "-" (str_lower (str_strip name)) = None ->
      set_scene_by_name cfg cs ws name speed w = (Raise (UnknownSceneName name), w)) /\
  (forall (name : string) (speed : option Z) (scene : Z),
      resolve_scene_name name = Some scene ->
      set_scene_by_name cfg cs ws name speed = set_scene cfg cs ws scene speed).
Proof.
  split; [vm_compute; reflexivity|].
  split; [vm_compute; reflexivity|].
  split; [exact resolve_scene_name_case|].
  split; [exact resolve_scene_name_swap|].
  split.
  - intros name speed w Hkey Hkey2.
    unfold set_scene_by_name, resolve_scene_name. rewrite Hkey, Hkey2.
    reflexivity.
  - intros name speed scene Hres. unfold set_scene_by_name.
    rewrite Hres. reflexivity.
Qed.

(** ** Facts about connecting *)

Section SessionFacts.
Variable cfg : config.
Variable cs : nat -> attempt.
Variable ws : nat -> option exn.

Lemma connect_once_raises (w : world) (e : exn) :
  on_connect (cs (connects w)) = Some e ->
  connect_once cfg cs w
  = (Raise e,
     mkWorld (self w) (S (connects w)) (writes w)
             (trace w ++ [EvConnect (connects w)])).
Proof.
  intros Hfail. unfold connect_once, new_client, await, emit, raise.
  unfold mbind, M_bind. cbn. rewrite Hfail. reflexivity.
Qed.

Lemma connect_once_succeeds (w : world) (resp : bool) :
  attempt_response (cs (connects w)) = Some resp ->
  connect_once cfg cs w
  = (Ok (mkBleakClient (connects w) true, resp),
     mkWorld (self w) (S (connects w)) (writes w)
             (trace w ++ attempt_events (connects w) (cs (connects w)))).
Proof.
  unfold attempt_response, attempt_events, connect_once, new_client, await,
    emit, raise, try_except.
  unfold mbind, M_bind, mret, M_ret. cbn.
  destruct (cs (connects w)) as [oc se ogs reg od osn]. cbn.
  destruct oc as [e|]; [discriminate|].
  destruct se, ogs as [[e|]|], osn as [e'|]; cbn;
    try discriminate;
    try (destruct (is_Exception e') eqn:He'; cbn; try discriminate);
    destruct reg; cbn; try discriminate;
    intros [= <-]; rewrite <- ?app_assoc; reflexivity.
Qed.

(** [n] rounds of the loop, every one of which fails to connect. *)
Lemma connect_loop_all_fail (n : nat) :
  forall (attempt : Z) (last_err : option exn) (w : world),
    _closing (self w) = false ->
    client_live (self w) = false ->
    (forall k, (k < n)%nat -> exists e, on_connect (cs (connects w + k)) = Some e) ->
    connect_loop cfg cs (seqZ attempt (Z.of_nat n)) last_err w
    = (Raise (FailedToConnect (_connect_retries cfg)
                match n with
                | O => last_err
                | S k => on_connect (cs (connects w + k))
                end),
       mkWorld (self w) (connects w + n) (writes w)
               (trace w ++ backoff_trace cfg n attempt (connects w))).
Proof.
  induction n as [|n IH]; intros attempt last_err w Hclosing Hlive Hfail.
  - cbn. unfold raise. rewrite Nat.add_0_r, app_nil_r.
    destruct w; reflexivity.
  - rewrite seqZ_cons by lia.
    replace (Z.pred (Z.of_nat (S n))) with (Z.of_nat n) by lia.
    destruct (Hfail 0%nat ltac:(lia)) as [e He].
    rewrite Nat.add_0_r in He.
    cbn [connect_loop]. unfold mbind, M_bind, get_self at 1.
    rewrite Hclosing, Hlive. unfold try_except at 1.
    unfold mbind, M_bind. rewrite (connect_once_raises w e He).
    cbn [BaseException emit mret M_ret self connects writes trace].
    set (w1 := mkWorld (self w) (S (connects w)) (writes w)
                 ((trace w ++ [EvConnect (connects w)])
                  ++ [EvSleep (_retry_delay_s cfg * float_of_int attempt)%float])).
    rewrite (IH (Z.succ attempt) (Some e) w1 Hclosing Hlive).
    + subst w1. cbn [self connects writes trace backoff_trace].
      f_equal.
      * do 2 f_equal. destruct n as [|k].
        -- rewrite <- He. f_equal. f_equal. lia.
        -- f_equal. f_equal. lia.
      * f_equal; [lia|].
        rewrite <- !app_assoc. cbn [app]. reflexivity.
    + intros k Hk. subst w1. cbn [connects].
      destruct (Hfail (S k) ltac:(lia)) as [e' He'].
      exists e'. rewrite <- He'. f_equal. f_equal. lia.
Qed.
End SessionFacts.

Lemma backoff_trace_length (cfg : config) (n : nat) (attempt : Z) (id : nat) :
  length (backoff_trace cfg n attempt id) = (2 * n)%nat.
Proof.
  revert attempt id. induction n as [|n IH]; intros attempt id; cbn; [reflexivity|].
  rewrite IH. lia.
Qed.

Lemma backoff_trace_lookup (cfg : config) (n : nat) :
  forall (attempt : Z) (id i : nat),
    (i < n)%nat ->
    backoff_trace cfg n attempt id !! (2 * i)%nat = Some (EvConnect (id + i)) /\
    backoff_trace cfg n attempt id !! (2 * i + 1)%nat
    = Some (EvSleep (_retry_delay_s cfg * float_of_int (attempt + Z.of_nat i))%float).
Proof.
  induction n as [|n IH]; intros attempt id i Hi; [lia|].
  destruct i as [|i].
  - cbn. rewrite Nat.add_0_r, Z.add_0_r. split; reflexivity.
  - replace (2 * S i)%nat with (S (S (2 * i))) by lia.
    replace (S (S (2 * i)) + 1)%nat with (S (S (2 * i + 1))) by lia.
    replace (id + S i)%nat with (S id + i)%nat by lia.
    replace (attempt + Z.of_nat (S i)) with (attempt + 1 + Z.of_nat i) by lia.
    exact (IH (attempt + 1) (S id) i ltac:(lia)).
Qed.

(** ** Claims on the session *)

(** C9: with the object not closing and holding no live connection, if
    [client.connect()] fails in every attempt, [_connect_async] makes exactly
    [connect_retries] attempts (5 by default), sleeps
    [retry_delay_s * attempt] after the attempt numbered [attempt] (so
    between any two attempts, and once more after the last), and then
    raises the failed-to-connect error that carries the error of the last
    attempt; the object's fields are left as they were. *)
Theorem connect_async_exhausts_retries
    (cfg : config) (cs : nat -> attempt) (w : world) :
  _closing (self w) = false ->
  client_live (self w) = false ->
  0 <= _connect_retries cfg ->
  (forall k, (k < Z.to_nat (_connect_retries cfg))%nat ->
             exists e, on_connect (cs (connects w + k)%nat) = Some e) ->
  let n := Z.to_nat (_connect_retries cfg) in
  let tr := backoff_trace cfg n 1 (connects w) in
  _connect_async cfg cs w
  = (Raise (FailedToConnect (_connect_retries cfg)
              match n with
              | O => None
              | S k => on_connect (cs (connects w + k)%nat)
              end),
     mkWorld (self w) (connects w + n)%nat (writes w) (trace w ++ tr)) /\
  Z.of_nat n = _connect_retries cfg /\
  length tr = (2 * n)%nat /\
  (forall i, (i < n)%nat ->
     tr !! (2 * i)%nat = Some (EvConnect (connects w + i)%nat) /\
     tr !! (2 * i + 1)%nat
     = Some (EvSleep (_retry_delay_s cfg * float_of_int (1 + Z.of_nat i))%float)) /\
  _connect_retries (default_config (address cfg)) = 5.
Proof.
  intros Hclosing Hlive Hretries Hfail n tr.
  split; [|split; [|split; [|split]]].
  - unfold _connect_async, range.
    replace (_connect_retries cfg + 1 - 1) with (Z.of_nat n) by (subst n; lia).
    apply (connect_loop_all_fail cfg cs n 1 None w Hclosing Hlive Hfail).
  - subst n. lia.
  - apply backoff_trace_length.
  - intros i Hi. apply backoff_trace_lookup. exact Hi.
  - reflexivity.
Qed.

Lemma connect_async_exhausts_retries_witness :
  let cfg := default_config "FF:FF:11:52:AB:BD" in
  let tr := backoff_trace cfg 5 1 0 in
  _connect_async cfg (fun _ => refusing_attempt) fresh_world
  = (Raise (FailedToConnect 5 (Some (BleakError 1))),
     mkWorld (self fresh_world) 5 0 tr) /\
  Z.of_nat 5 = 5 /\
  length tr = 10%nat /\
  (forall i, (i < 5)%nat ->
     tr !! (2 * i)%nat = Some (EvConnect (0 + i)%nat) /\
     tr !! (2 * i + 1)%nat
     = Some (EvSleep (_retry_delay_s cfg * float_of_int (1 + Z.of_nat i))%float)) /\
  _connect_retries (default_config (address cfg)) = 5.
Proof.
  apply (connect_async_exhausts_retries
           (default_config "FF:FF:11:52:AB:BD") (fun _ => refusing_attempt)
           fresh_world).
  - reflexivity.
  - reflexivity.
  - vm_compute. discriminate.
  - intros k _. exists (BleakError 1). reflexivity.
Defined.

(** C8: with a live connection, a characteristic write that fails with an
    [Exception], followed by a connect attempt that succeeds, makes
    [_write_frame] drop the connection, connect exactly once, and write the
    same frame exactly once more on the new connection.  If that second
    write succeeds, the call returns normally; if it fails, its exception is
    what the caller gets. *)
Theorem write_frame_retries_once
    (cfg : config) (cs : nat -> attempt) (ws : nat -> option exn)
    (w : world) (frame : list Z)
    (client : BleakClient) (write : _WriteConfig) (e1 : exn) (resp : bool) :
  _client (self w) = Some client ->
  is_connected client = true ->
  _write (self w) = Some write ->
  _closing (self w) = false ->
  1 <= _connect_retries cfg ->
  ws (writes w) = Some e1 ->
  is_Exception e1 = true ->
  attempt_response (cs (connects w)) = Some resp ->
  let client' := mkBleakClient (connects w) true in
  let write' := mk_WriteConfig (_service_uuid cfg) (_write_uuid cfg) resp in
  let outcome :=
    match ws (S (writes w)) with
    | None => Ok tt
    | Some e2 => Raise e2
    end in
  _write_frame cfg cs ws frame w
  = (outcome,
     mkWorld
       (mkSession (_loop (self w)) (Some client') (Some write') false None false)
       (S (connects w))
       (S (S (writes w)))
       (trace w
        ++ [EvWrite (client_id client) (char_uuid write) frame (response write)]
        ++ attempt_events (connects w) (cs (connects w))
        ++ [EvWrite (connects w) (_write_uuid cfg) frame resp])) /\
  length (filter (fun ev => is_connect_event ev)
                 (attempt_events (connects w) (cs (connects w)))) = 1%nat /\
  (ws (S (writes w)) = None -> outcome = Ok tt) /\
  (forall e2, ws (S (writes w)) = Some e2 -> outcome = Raise e2).
Proof.
  intros Hclient Hconn Hwrite Hclosing Hretries Hfail Hexc Hresp
         client' write' outcome.
  split; [|split; [|split]].
  - unfold _write_frame, _ensure_connected.
    unfold mbind, M_bind, get_self, client_live.
    rewrite Hclient, Hconn. cbn [mret M_ret self]. rewrite Hclient, Hwrite.
    unfold try_except, write_gatt_char at 1. rewrite Hfail, Hexc.
    unfold _on_disconnect, set_self. cbn [self connects writes trace _client].
    unfold _connect_async, range.
    rewrite seqZ_cons by lia. cbn [connect_loop].
    unfold mbind, M_bind, get_self, client_live, try_except.
    cbn [self _closing _client connects writes trace].
    rewrite Hclosing.
    set (w1 := mkWorld _ (connects w) (S (writes w)) _).
    rewrite (connect_once_succeeds cfg cs w1 resp Hresp).
    subst w1. unfold set_self, write_gatt_char.
    cbn [mret M_ret self _client _write _loop _closing _last_notify
         connects writes trace client_id char_uuid response].
    subst outcome client' write'.
    rewrite <- !app_assoc.
    destruct (ws (S (writes w))); reflexivity.
  - unfold attempt_events.
    destruct (services_empty (cs (connects w)));
      [destruct (on_get_services (cs (connects w)))|]; reflexivity.
  - intros Hok. subst outcome. rewrite Hok. reflexivity.
  - intros e2 He2. subst outcome. rewrite He2. reflexivity.
Qed.

Lemma write_frame_retries_once_witness :
  _write_frame (default_config "FF:FF:11:52:AB:BD") (fun _ => accepting_attempt)
               first_write_fails power_on_frame connected_world
  = (Ok tt,
     mkWorld
       (mkSession true (Some (mkBleakClient 1 true))
          (Some (mk_WriteConfig DEFAULT_SERVICE_UUID DEFAULT_WRITE_UUID false))
          false None false)
       2 2
       [EvConnect 0; EvStartNotify 0;
        EvWrite 0 DEFAULT_WRITE_UUID power_on_frame false;
        EvConnect 1; EvStartNotify 1;
        EvWrite 1 DEFAULT_WRITE_UUID power_on_frame false]) /\
  length (filter (fun ev => is_connect_event ev)
                 (attempt_events 1 accepting_attempt)) = 1%nat /\
  (first_write_fails 1 = None -> Ok tt = Ok tt) /\
  (forall e2, first_write_fails 1 = Some e2 -> Ok tt = Raise e2).
Proof.
  apply (write_frame_retries_once
           (default_config "FF:FF:11:52:AB:BD") (fun _ => accepting_attempt)
           first_write_fails connected_world power_on_frame
           (mkBleakClient 0 true)
           (mk_WriteConfig DEFAULT_SERVICE_UUID DEFAULT_WRITE_UUID false)
           (BleakError 7) false).
  - reflexivity.
  - reflexivity.
  - reflexivity.
  - reflexivity.
  - vm_compute. discriminate.
  - reflexivity.
  - reflexivity.
  - reflexivity.
Defined.

(** The same call when the retried write fails too: the second error is
    the caller's. *)
Example write_frame_second_failure :
  fst (_write_frame (default_config "FF:FF:11:52:AB:BD")
         (fun _ => accepting_attempt) (fun _ => Some (BleakError 7))
         power_on_frame connected_world)
  = Raise (BleakError 7).
Proof. vm_compute. reflexivity. Qed.

(** A name written with a space resolves as well: the first key replaces
    spaces by underscores. *)
Example scene_name_with_space :
  resolve_scene_name "  Green Jade " = Some 71 /\
  resolve_scene_name "greenjade" = None.
Proof. split; vm_compute; reflexivity. Qed.

(** The power-on frame is what [_build_command] makes. *)
Example build_command_power_on :
  _build_command 0x01 (Some [0x01]) = Ok power_on_frame.
Proof. vm_compute. reflexivity. Qed.

(** * Further properties *)

(** ** The codec's helpers *)

(** X1: for [lo <= hi], [_clamp_int] lands in [lo, hi], leaves values of
    the range alone, sends the others to the nearer bound, and is
    monotone. *)
Theorem clamp_int_spec (value lo hi : Z) :
  lo <= hi ->
  lo <= _clamp_int value lo hi <= hi /\
  (lo <= value <= hi -> _clamp_int value lo hi = value) /\
  (value < lo -> _clamp_int value lo hi = lo) /\
  (hi < value -> _clamp_int value lo hi = hi) /\
  (forall value', value <= value' ->
                  _clamp_int value lo hi <= _clamp_int value' lo hi).
Proof.
  intros Hle. unfold _clamp_int.
  repeat split; intros;
    repeat match goal with
           | |- context [Z.ltb ?a ?b] => destruct (Z.ltb_spec a b)
           end; lia.
Qed.

Lemma clamp_int_spec_witness :
  0 <= _clamp_int 300 0 255 <= 255 /\
  (0 <= 300 <= 255 -> _clamp_int 300 0 255 = 300) /\
  (300 < 0 -> _clamp_int 300 0 255 = 0) /\
  (255 < 300 -> _clamp_int 300 0 255 = 255) /\
  (forall value', 300 <= value' ->
                  _clamp_int 300 0 255 <= _clamp_int value' 0 255).
Proof. apply (clamp_int_spec 300 0 255). lia. Defined.

(** X2: [_u16_be] returns two bytes for every integer, and they are the
    big-endian digits of the value modulo 65536: out-of-range and negative
    values wrap, they are not clamped. *)
Theorem u16_be_wraps (value : Z) :
  exists hi lo,
    _u16_be value = [hi; lo] /\
    is_byte hi /\ is_byte lo /\
    hi * 256 + lo = value mod 65536.
Proof.
  pose proof (Z.mod_pos_bound value 65536 ltac:(lia)) as Hv.
  exists (value mod 65536 / 256), (value mod 65536 mod 256).
  split; [|split; [|split]].
  - unfold _u16_be. rewrite land_65535_mod, !land_255_mod.
    rewrite Z.shiftr_div_pow2 by lia. change (2 ^ 8) with 256.
    rewrite (Z.mod_small (value mod 65536 / 256)); [reflexivity|].
    split; [apply Z.div_pos; lia|apply Z.div_lt_upper_bound; lia].
  - unfold is_byte.
    split; [apply Z.div_pos; lia|].
    assert (value mod 65536 / 256 < 256) by (apply Z.div_lt_upper_bound; lia).
    lia.
  - unfold is_byte. pose proof (Z.mod_pos_bound (value mod 65536) 256). lia.
  - pose proof (Z.div_mod (value mod 65536) 256 ltac:(lia)). lia.
Qed.

(** X3: [_checksum_ff s] is the one byte that completes a partial sum [s]
    to 0xFF modulo 256. *)
Theorem checksum_ff_unique (s c : Z) :
  (is_byte c /\ (s + c) mod 256 = 255) <-> c = _checksum_ff s.
Proof.
  split.
  - intros [Hc Hsum]. unfold is_byte in Hc.
    unfold _checksum_ff. rewrite !land_255_mod.
    pose proof (Z.mod_pos_bound s 256 ltac:(lia)) as Hs.
    rewrite (Z.mod_small (255 - s mod 256)) by lia.
    rewrite Z.add_mod in Hsum by lia.
    rewrite (Z.mod_small c) in Hsum by lia.
    assert (Hlt : 0 <= s mod 256 + c < 512) by lia.
    destruct (Z_lt_ge_dec (s mod 256 + c) 256) as [Hsmall|Hbig].
    + rewrite Z.mod_small in Hsum by lia. lia.
    + replace (s mod 256 + c) with ((s mod 256 + c - 256) + 1 * 256) in Hsum by lia.
      rewrite Z.mod_add in Hsum by lia.
      rewrite Z.mod_small in Hsum by lia. lia.
  - intros ->. split; [apply checksum_ff_byte|apply checksum_ff_completes].
Qed.

(** X4: [_build_command] uses only the low byte of [cmd], and what it
    returns for a payload of bytes is a string of bytes. *)
Theorem build_command_masks_cmd (cmd : Z) (payload : option (list Z)) :
  _build_command cmd payload = _build_command (cmd mod 256) payload /\
  (is_bytes (default [] payload) ->
   forall frame, _build_command cmd payload = Ok frame -> is_bytes frame).
Proof.
  split.
  - unfold _build_command. rewrite !land_255_mod, Z.mod_mod by lia.
    reflexivity.
  - intros Hpay frame Hbuild.
    destruct (Z_le_gt_dec (5 + len (default [] payload)) 255) as [Hle|Hgt].
    + assert (Hframe : _build_command cmd payload
                       = Ok (frame_of cmd (default [] payload))).
      { destruct payload as [p|]; [|rewrite build_command_none];
          apply build_command_frame; exact Hle. }
      rewrite Hframe in Hbuild. injection Hbuild as <-.
      apply frame_of_bytes. exact Hpay.
    + unfold _build_command in Hbuild.
      destruct (Z.ltb_spec 255 (5 + len (default [] payload)));
        [discriminate Hbuild|lia].
Qed.

Lemma frame_of_checksum (cmd : Z) (payload : list Z) :
  Z.land (sum (frame_of cmd payload)) 0xFF = 0xFF.
Proof.
  unfold frame_of. cbv zeta. rewrite sum_app.
  replace (sum [_checksum_ff _]) with
    (_checksum_ff (sum ([85; Z.land cmd 255; 255;
                         Z.land (5 + len payload) 255] ++ payload)))
    by (unfold sum at 3; simpl; reflexivity).
  rewrite land_255_mod. apply checksum_ff_completes.
Qed.

Lemma frame_of_length (cmd : Z) (payload : list Z) :
  len (frame_of cmd payload) = 5 + len payload.
Proof. unfold frame_of, len. rewrite !length_app. simpl. lia. Qed.

(** The 0x55 branch of [_parse_state], once the checks have passed. *)
Lemma parse_state_55 (l : list Z) :
  6 <= len (0x55 :: l) ->
  Z.land (sum (0x55 :: l)) 0xFF = 0xFF ->
  byte_at (0x55 :: l) 3 = len (0x55 :: l) ->
  _parse_state (Some (0x55 :: l))
  = mkHexagonState
      (Some (negb (byte_at (0x55 :: l) 4 =? 0)))
      (if 7 <=? len (0x55 :: l)
       then in_percent_range (byte_at (0x55 :: l) 5 - 5)
       else None)
      (Some (0x55 :: l)).
Proof.
  intros Hlen Hsum Hb3. unfold _parse_state.
  destruct (Z.ltb_spec (len (85 :: l)) 6) as [?|_]; [lia|].
  rewrite Hsum. cbn [Z.eqb Pos.eqb negb].
  change (byte_at (85 :: l) 0) with 85. cbn [Z.eqb Pos.eqb].
  rewrite Hb3, Z.eqb_refl. reflexivity.
Qed.

(** X5: the parser accepts what the builder makes.  A frame built around a
    payload of at least one byte passes the checksum and the length checks
    of [_parse_state] and reads as a 0x55 state frame: the power flag is
    whether the first payload byte is nonzero, the brightness comes from the
    second payload byte when there is one; a frame with an empty payload
    is too short and parses to the unknown state. *)
Theorem parse_state_of_built_frame (cmd p0 : Z) (rest : list Z) :
  5 + len (p0 :: rest) <= 255 ->
  (exists frame,
      _build_command cmd (Some (p0 :: rest)) = Ok frame /\
      _parse_state (Some frame)
      = mkHexagonState
          (Some (negb (p0 =? 0)))
          match rest with
          | [] => None
          | p1 :: _ => in_percent_range (p1 - 5)
          end
          (Some frame)) /\
  (exists frame,
      _build_command cmd None = Ok frame /\
      _parse_state (Some frame) = mkHexagonState None None (Some frame)).
Proof.
  intros Hlen. split.
  - exists (frame_of cmd (p0 :: rest)).
    split; [apply build_command_frame; exact Hlen|].
    pose proof (frame_of_checksum cmd (p0 :: rest)) as Hsum.
    pose proof (frame_of_length cmd (p0 :: rest)) as Hflen.
    assert (Hshape : exists ck,
               frame_of cmd (p0 :: rest)
               = 85 :: Z.land cmd 255 :: 255
                    :: Z.land (5 + len (p0 :: rest)) 255
                    :: p0 :: rest ++ [ck]).
    { unfold frame_of. cbv zeta. eexists. reflexivity. }
    destruct Hshape as [ck Hshape].
    rewrite Hshape in *.
    rewrite parse_state_55.
    + change (byte_at _ 4) with p0. f_equal.
      rewrite Hflen.
      destruct rest as [|p1 rest].
      * reflexivity.
      * change (byte_at _ 5) with p1.
        destruct (Z.leb_spec 7 (5 + len (p0 :: p1 :: rest))) as [_|Hshort];
          [reflexivity|].
        unfold len in Hshort. cbn [length] in Hshort. lia.
    + unfold len in *. simpl in *. lia.
    + exact Hsum.
    + change (byte_at _ 3) with (Z.land (5 + len (p0 :: rest)) 255).
      rewrite Hflen, land_255_mod. apply Z.mod_small.
      unfold len in *. cbn [length] in *. lia.
  - exists (frame_of cmd []).
    split; [rewrite build_command_none; apply build_command_frame;
            unfold len; simpl; lia|].
    reflexivity.
Qed.

Lemma parse_state_of_built_frame_witness :
  (exists frame,
      _build_command 0x01 (Some [0x01]) = Ok frame /\
      _parse_state (Some frame)
      = mkHexagonState (Some (negb (0x01 =? 0))) None (Some frame)) /\
  (exists frame,
      _build_command 0x01 None = Ok frame /\
      _parse_state (Some frame) = mkHexagonState None None (Some frame)).
Proof.
  apply (parse_state_of_built_frame 0x01 0x01 []).
  vm_compute. discriminate.
Defined.

(** ** What [_parse_state] reports *)

(** X6: [_parse_state] keeps the raw bytes of every non-empty input,
    whatever it makes of them, and reports no raw bytes for an empty or
    absent one. *)
Theorem parse_state_keeps_raw (data : option (list Z)) :
  raw (_parse_state data)
  = match data with
    | Some (x :: l) => Some (x :: l)
    | _ => None
    end.
Proof.
  destruct data as [[|x l]|]; [reflexivity| |reflexivity].
  unfold _parse_state.
  repeat match goal with
         | |- context [if ?c then _ else _] => destruct c
         end; reflexivity.
Qed.

(** X7: a brightness that [_parse_state] reports is always a percentage in
    [0, 100], and comes with a known power flag. *)
Theorem parse_state_brightness_range (data : option (list Z)) (b : Z) :
  brightness_percent (_parse_state data) = Some b ->
  0 <= b <= 100 /\ exists v, is_on (_parse_state data) = Some v.
Proof.
  assert (Hrange : forall x, in_percent_range x = Some b -> 0 <= b <= 100).
  { intros x. unfold in_percent_range.
    destruct (Z.leb_spec 0 x), (Z.leb_spec x 100); cbn; intros [= <-]; lia. }
  destruct data as [[|x l]|]; [discriminate|idtac|discriminate].
  unfold _parse_state.
  repeat match goal with
         | |- context [if ?c then _ else _] => destruct c
         end; cbn [brightness_percent is_on]; try discriminate;
    intros Hb; (split; [exact (Hrange _ Hb)|eexists; reflexivity]).
Qed.

Lemma parse_state_brightness_range_witness :
  0 <= 14 <= 100 /\ exists v, is_on (_parse_state (Some tg609_sync_frame)) = Some v.
Proof.
  apply (parse_state_brightness_range (Some tg609_sync_frame) 14).
  vm_compute. reflexivity.
Defined.

(** X8: [_parse_state] reports a power flag only for an input of at least
    6 bytes whose byte sum is 0xFF modulo 256 and which either starts with
    0x55 and carries its own length in byte 3, or starts with 0x56; the flag
    is then whether byte 4 is nonzero. *)
Theorem parse_state_is_on_only_if_valid (data : list Z) (v : bool) :
  is_on (_parse_state (Some data)) = Some v ->
  6 <= len data /\
  Z.land (sum data) 0xFF = 0xFF /\
  ((byte_at data 0 = 0x55 /\ byte_at data 3 = len data) \/ byte_at data 0 = 0x56) /\
  v = negb (byte_at data 4 =? 0).
Proof.
  destruct data as [|x l]; [discriminate|].
  unfold _parse_state.
  destruct (Z.ltb_spec (len (x :: l)) 6) as [?|Hlen]; [discriminate|].
  destruct (Z.eqb_spec (Z.land (sum (x :: l)) 255) 255) as [Hsum|?];
    [|discriminate].
  cbn [negb].
  destruct (Z.eqb_spec (byte_at (x :: l) 0) 85) as [H55|H55].
  - destruct (Z.eqb_spec (byte_at (x :: l) 3) (len (x :: l))) as [Hb3|?];
      [|discriminate].
    cbn [negb is_on]. intros [= <-].
    repeat split; try assumption. left. split; assumption.
  - destruct (Z.eqb_spec (byte_at (x :: l) 0) 86) as [H56|?]; [|discriminate].
    cbn [negb is_on]. intros [= <-].
    repeat split; try assumption. right. assumption.
Qed.

Lemma parse_state_is_on_only_if_valid_witness :
  6 <= len tg609_sync_frame /\
  Z.land (sum tg609_sync_frame) 0xFF = 0xFF /\
  ((byte_at tg609_sync_frame 0 = 0x55
    /\ byte_at tg609_sync_frame 3 = len tg609_sync_frame)
   \/ byte_at tg609_sync_frame 0 = 0x56) /\
  true = negb (byte_at tg609_sync_frame 4 =? 0).
Proof.
  apply (parse_state_is_on_only_if_valid tg609_sync_frame true).
  vm_compute. reflexivity.
Defined.

(** X9: in a checksum-valid 0x56 notification of at least 8 bytes, with
    the big-endian value [v] at bytes 5 and 6, the brightness is reported,
    as [v // 10 - 5], exactly when [50 <= v <= 1059]; the power flag is
    reported either way. *)
Theorem parse_state_56_brightness_window (data : list Z) :
  8 <= len data ->
  byte_at data 0 = 0x56 ->
  Z.land (sum data) 0xFF = 0xFF ->
  is_byte (byte_at data 5) ->
  is_byte (byte_at data 6) ->
  let v := byte_at data 5 * 256 + byte_at data 6 in
  brightness_percent (_parse_state (Some data))
  = (if (50 <=? v) && (v <=? 1059) then Some (v / 10 - 5) else None) /\
  is_on (_parse_state (Some data)) = Some (negb (byte_at data 4 =? 0)).
Proof.
  intros Hlen Hhead Hsum H5 H6 v. unfold is_byte in H5, H6.
  destruct data as [|x l]; [unfold len in Hlen; simpl in Hlen; lia|].
  rewrite parse_state_cons; [|lia|exact Hsum|exact Hhead].
  cbn [brightness_percent is_on]. split; [|reflexivity].
  destruct (Z.leb_spec 8 (len (x :: l))) as [_|?]; [|lia].
  assert (Hv : Z.lor (Z.shiftl (byte_at (x :: l) 5) 8) (byte_at (x :: l) 6) = v).
  { rewrite <- (u16_be_decode v). subst v.
    rewrite Z.div_add_l, Z.div_small, Z.add_0_r by lia.
    rewrite Z.add_comm, Z.mod_add, Z.mod_small by lia. reflexivity. }
  rewrite Hv. unfold in_percent_range.
  assert (Hdiv : 0 <= v / 10 - 5 <-> 50 <= v).
  { split; intros H.
    - assert (5 <= v / 10) by lia.
      pose proof (Z.mul_div_le v 10 ltac:(lia)). lia.
    - assert (50 / 10 <= v / 10) by (apply Z.div_le_mono; lia).
      change (50 / 10) with 5 in *. lia. }
  assert (Hdiv' : v / 10 - 5 <= 100 <-> v <= 1059).
  { split; intros H.
    - assert (v / 10 < 106) by lia.
      pose proof (Z.div_mod v 10 ltac:(lia)).
      pose proof (Z.mod_pos_bound v 10 ltac:(lia)). lia.
    - assert (v / 10 <= 1059 / 10) by (apply Z.div_le_mono; lia).
      change (1059 / 10) with 105 in *. lia. }
  destruct (Z.leb_spec 0 (v / 10 - 5)), (Z.leb_spec (v / 10 - 5) 100),
    (Z.leb_spec 50 v), (Z.leb_spec v 1059); cbn; try reflexivity; lia.
Qed.

Lemma parse_state_56_brightness_window_witness :
  let v := byte_at tg609_sync_frame 5 * 256 + byte_at tg609_sync_frame 6 in
  brightness_percent (_parse_state (Some tg609_sync_frame))
  = (if (50 <=? v) && (v <=? 1059) then Some (v / 10 - 5) else None) /\
  is_on (_parse_state (Some tg609_sync_frame))
  = Some (negb (byte_at tg609_sync_frame 4 =? 0)).
Proof.
  apply (parse_state_56_brightness_window tg609_sync_frame).
  - vm_compute. discriminate.
  - reflexivity.
  - reflexivity.
  - unfold is_byte. vm_compute. split; discriminate.
  - unfold is_byte. vm_compute. split; discriminate.
Defined.

(** ** What the colour payload encodes *)

(** The payload is defined for every input, and made of a hue below 360
    and a saturation of at most 1000. *)
Lemma rgb_payload_defined (r g b : Z) :
  exists hue sat,
    0 <= hue < 360 /\ 0 <= sat <= 1000 /\
    _rgb_to_hue_sat_payload r g b
    = Some [hue / 256; hue mod 256; sat / 256; sat mod 256].
Proof.
  pose proof (hsv_finite_channels (_clamp_int r 0 255) (_clamp_int g 0 255)
                (_clamp_int b 0 255)
                (clamp_int_range r 0 255 ltac:(lia))
                (clamp_int_range g 0 255 ltac:(lia))
                (clamp_int_range b 0 255 ltac:(lia))) as Hfin.
  unfold hsv_finite in Hfin. unfold _rgb_to_hue_sat_payload.
  destruct (channel_hsv _ _ _) as [[[h s] v]|]; [|discriminate Hfin].
  apply andb_prop in Hfin as [Hh Hs].
  destruct (float_to_int_finite _ Hh) as [hi Hhi].
  destruct (float_to_int_finite _ Hs) as [si Hsi].
  exists (hi mod 360), (_clamp_int si 0 1000).
  pose proof (Z.mod_pos_bound hi 360 ltac:(lia)) as Hhue.
  pose proof (clamp_int_range si 0 1000 ltac:(lia)) as Hsat.
  split; [exact Hhue|]. split; [exact Hsat|].
  cbn [mbind option_bind]. unfold hue_sat_bytes. rewrite Hhi, Hsi.
  cbn [mbind option_bind]. rewrite !u16_be_bytes by lia. reflexivity.
Qed.

(** X10: a grey input, all three channels equal, encodes as hue 0 and
    saturation 0, whatever the level and also when it is out of range. *)
Theorem rgb_payload_grey (c : Z) :
  _rgb_to_hue_sat_payload c c c = Some [0; 0; 0; 0].
Proof.
  unfold _rgb_to_hue_sat_payload.
  pose proof (clamp_int_range c 0 255 ltac:(lia)) as Hk.
  set (k := _clamp_int c 0 255) in *.
  unfold channel_hsv, rgb_to_hsv, float_max3, float_min3. cbv zeta.
  rewrite (channel_ltb k k) by lia.
  rewrite Z.ltb_irrefl. rewrite (channel_ltb k k) by lia.
  rewrite Z.ltb_irrefl. rewrite (channel_eqb k k) by lia.
  rewrite Z.eqb_refl. cbn [mbind option_bind].
  vm_compute. reflexivity.
Qed.

Lemma full_saturation_check_all : all_from 255 1 full_saturation_check = true.
Proof. vm_cast_no_check (eq_refl true). Qed.

Lemma full_saturation (i : Z) :
  1 <= i <= 255 ->
  float_div (channel i - channel 0) (channel i) = Some 1%float.
Proof.
  intros Hi.
  pose proof (all_from_spec _ _ _ full_saturation_check_all i ltac:(lia)) as Hc.
  unfold full_saturation_check in Hc.
  destruct (float_div (channel i - channel 0) (channel i)) as [s|];
    [|discriminate Hc].
  apply FloatAxioms.Leibniz.eqb_spec in Hc. rewrite Hc. reflexivity.
Qed.

(** The saturation that [rgb_to_hsv] returns for channels that differ. *)
Lemma channel_hsv_saturation (r g b M m : Z) (h s s' v : float) :
  0 <= r <= 255 -> 0 <= g <= 255 -> 0 <= b <= 255 ->
  0 <= m < M -> M <= 255 ->
  float_max3 (channel r) (channel g) (channel b) = channel M ->
  float_min3 (channel r) (channel g) (channel b) = channel m ->
  float_div (channel M - channel m) (channel M) = Some s ->
  channel_hsv r g b = Some (h, s', v) ->
  s' = s.
Proof.
  intros Hr Hg Hb Hm HM Hmax Hmin Hs Hhsv.
  unfold channel_hsv, rgb_to_hsv in Hhsv. cbv zeta in Hhsv.
  rewrite Hmax, Hmin in Hhsv.
  rewrite (channel_eqb m M) in Hhsv by lia.
  destruct (Z.eqb_spec m M) as [?|_]; [lia|].
  rewrite Hs in Hhsv. cbn [mbind option_bind] in Hhsv.
  destruct (float_div (channel M - channel r) (channel M - channel m));
    [|discriminate Hhsv].
  cbn [mbind option_bind] in Hhsv.
  destruct (float_div (channel M - channel g) (channel M - channel m));
    [|discriminate Hhsv].
  cbn [mbind option_bind] in Hhsv.
  destruct (float_div (channel M - channel b) (channel M - channel m));
    [|discriminate Hhsv].
  cbn [mbind option_bind] in Hhsv.
  injection Hhsv as _ Hs' _. symmetry. exact Hs'.
Qed.

(** X11: a fully saturated colour, one whose least channel (after the
    clamp) is 0 while another is positive, encodes the saturation as exactly
    1000, whatever the hue: no float rounding gets in the way. *)
Theorem rgb_payload_full_saturation (r g b : Z) :
  Z.min (_clamp_int r 0 255) (Z.min (_clamp_int g 0 255) (_clamp_int b 0 255)) = 0 ->
  0 < Z.max (_clamp_int r 0 255) (Z.max (_clamp_int g 0 255) (_clamp_int b 0 255)) ->
  exists hue,
    0 <= hue < 360 /\
    _rgb_to_hue_sat_payload r g b = Some [hue / 256; hue mod 256; 3; 232].
Proof.
  intros Hzero Hpos.
  pose proof (clamp_int_range r 0 255 ltac:(lia)) as Hr.
  pose proof (clamp_int_range g 0 255 ltac:(lia)) as Hg.
  pose proof (clamp_int_range b 0 255 ltac:(lia)) as Hb.
  set (rc := _clamp_int r 0 255) in *.
  set (gc := _clamp_int g 0 255) in *.
  set (bc := _clamp_int b 0 255) in *.
  destruct (float_max3_channel rc gc bc Hr Hg Hb) as (M & HM & HMin & HrM & HgM & HbM).
  destruct (float_min3_channel rc gc bc Hr Hg Hb) as (m & Hm & Hmin & Hmr & Hmg & Hmb).
  assert (m = 0) by lia. subst m.
  assert (HMpos : 1 <= M <= 255) by lia.
  pose proof (hsv_finite_channels rc gc bc Hr Hg Hb) as Hfin.
  unfold hsv_finite in Hfin.
  destruct (channel_hsv rc gc bc) as [[[h s] v]|] eqn:Hhsv; [|discriminate Hfin].
  apply andb_prop in Hfin as [Hh _].
  assert (s = 1%float) as ->.
  { apply (channel_hsv_saturation rc gc bc M 0 h 1%float s v); try assumption;
      try lia. apply full_saturation. exact HMpos. }
  destruct (float_to_int_finite _ Hh) as [hi Hhi].
  exists (hi mod 360).
  split; [apply Z.mod_pos_bound; lia|].
  unfold _rgb_to_hue_sat_payload. fold rc gc bc. rewrite Hhsv.
  cbn [mbind option_bind]. unfold hue_sat_bytes. rewrite Hhi.
  cbn [mbind option_bind].
  replace (float_to_int (1 * 1000)%float) with (Some 1000)
    by (vm_compute; reflexivity).
  cbn [mbind option_bind].
  pose proof (Z.mod_pos_bound hi 360 ltac:(lia)).
  rewrite (u16_be_bytes (hi mod 360)) by lia. reflexivity.
Qed.

Lemma rgb_payload_full_saturation_witness :
  exists hue,
    0 <= hue < 360 /\
    _rgb_to_hue_sat_payload 255 100 0 = Some [hue / 256; hue mod 256; 3; 232].
Proof.
  apply (rgb_payload_full_saturation 255 100 0).
  - reflexivity.
  - reflexivity.
Defined.

(** ** What the commands send *)

(** X12: [set_rgb] never fails to encode.  For all integers the payload
    builder returns four bytes, [_build_command] makes a 9-byte cmd-0x03
    frame of them, and that frame is what [_write_frame] is given. *)
Theorem set_rgb_always_encodes
    (cfg : config) (cs : nat -> attempt) (ws : nat -> option exn) (r g b : Z) :
  exists payload frame,
    _rgb_to_hue_sat_payload r g b = Some payload /\
    len payload = 4 /\ is_bytes payload /\
    _build_command 0x03 (Some payload) = Ok frame /\
    len frame = 9 /\ byte_at frame 1 = 0x03 /\
    (forall w, set_rgb cfg cs ws r g b w = _run (_write_frame cfg cs ws frame) w).
Proof.
  destruct (rgb_payload_defined r g b) as (hue & sat & Hhue & Hsat & Hpay).
  exists [hue / 256; hue mod 256; sat / 256; sat mod 256].
  exists (frame_of 0x03 [hue / 256; hue mod 256; sat / 256; sat mod 256]).
  assert (Hbuild : _build_command 0x03
                     (Some [hue / 256; hue mod 256; sat / 256; sat mod 256])
                   = Ok (frame_of 0x03
                           [hue / 256; hue mod 256; sat / 256; sat mod 256])).
  { apply build_command_frame. unfold len. simpl. lia. }
  split; [exact Hpay|]. split; [reflexivity|]. split.
  - unfold is_bytes, is_byte.
    assert (0 <= hue / 256 <= 255).
    { split; [apply Z.div_pos; lia|].
      assert (hue / 256 < 256) by (apply Z.div_lt_upper_bound; lia). lia. }
    assert (0 <= sat / 256 <= 255).
    { split; [apply Z.div_pos; lia|].
      assert (sat / 256 < 256) by (apply Z.div_lt_upper_bound; lia). lia. }
    pose proof (Z.mod_pos_bound hue 256 ltac:(lia)).
    pose proof (Z.mod_pos_bound sat 256 ltac:(lia)).
    repeat (apply Forall_cons; split); try apply Forall_nil; try exact I; lia.
  - split; [exact Hbuild|]. split; [reflexivity|]. split; [reflexivity|].
    intros w. unfold set_rgb, _set_rgb_async. rewrite Hpay, Hbuild.
    reflexivity.
Qed.

(** X13: the power command and the parser agree.  [_send_simple_power]
    gives [_write_frame] a 6-byte cmd-0x01 frame, and that frame parses back
    to the power flag it was made from, with no brightness. *)
Theorem send_simple_power_round_trip
    (cfg : config) (cs : nat -> attempt) (ws : nat -> option exn) (on : bool) :
  let frame :=
    [0x55; 0x01; 0xFF; 0x06; if on then 0x01 else 0x00;
     if on then 0xA3 else 0xA4] in
  (forall w, _send_simple_power cfg cs ws on w = _write_frame cfg cs ws frame w) /\
  _parse_state (Some frame) = mkHexagonState (Some on) None (Some frame).
Proof.
  destruct on; split; intros; reflexivity.
Qed.

(** X14: [_set_scene_async] clamps the scene index to [0, 65535] and sends
    it big-endian in a cmd-0x06 frame.  Without a speed that is all; with
    one, a cmd-0x0F frame with the speed clamped to [0, 255] follows, and it
    is not sent when writing the scene frame raises. *)
Theorem set_scene_async_frames
    (cfg : config) (cs : nat -> attempt) (ws : nat -> option exn)
    (scene : Z) :
  let sc := _clamp_int scene 0 0xFFFF in
  let scene_frame :=
    [0x55; 0x06; 0xFF; 7; sc / 256; sc mod 256;
     _checksum_ff (0x55 + 0x06 + 0xFF + 7 + sc / 256 + sc mod 256)] in
  let speed_frame (speed : Z) :=
    let sp := _clamp_int speed 0 255 in
    [0x55; 0x0F; 0xFF; 6; sp; _checksum_ff (0x55 + 0x0F + 0xFF + 6 + sp)] in
  0 <= sc <= 65535 /\
  (forall w, _set_scene_async cfg cs ws scene None w
             = _write_frame cfg cs ws scene_frame w) /\
  (forall speed w,
      _set_scene_async cfg cs ws scene (Some speed) w
      = (_write_frame cfg cs ws scene_frame;;
         _write_frame cfg cs ws (speed_frame speed)) w) /\
  (forall speed w e w',
      _write_frame cfg cs ws scene_frame w = (Raise e, w') ->
      _set_scene_async cfg cs ws scene (Some speed) w = (Raise e, w')).
Proof.
  intros sc scene_frame speed_frame.
  pose proof (clamp_int_range scene 0 65535 ltac:(lia)) as Hsc. fold sc in Hsc.
  assert (Hscene : _build_command 0x06 (Some (_u16_be sc)) = Ok scene_frame).
  { rewrite u16_be_bytes by lia.
    rewrite build_command_frame by (unfold len; simpl; lia).
    unfold frame_of, len. cbn [length app].
    change (Z.land 6 255) with 6. change (Z.land (5 + Z.of_nat 2) 255) with 7.
    unfold scene_frame.
    replace (sum [85; 6; 255; 7; sc / 256; sc mod 256])
      with (85 + 6 + 255 + 7 + sc / 256 + sc mod 256)
      by (unfold sum; simpl; lia).
    reflexivity. }
  assert (Hspeed : forall speed,
            _build_command 0x0F
              (Some [Z.land (_clamp_int speed 0 255) 0xFF])
            = Ok (speed_frame speed)).
  { intros speed.
    pose proof (clamp_int_range speed 0 255 ltac:(lia)) as Hsp.
    rewrite land_255_mod, Z.mod_small by lia.
    rewrite build_command_frame by (unfold len; simpl; lia).
    unfold frame_of, len. cbn [length app].
    change (Z.land 15 255) with 15. change (Z.land (5 + Z.of_nat 1) 255) with 6.
    unfold speed_frame. cbv zeta.
    replace (sum [85; 15; 255; 6; _clamp_int speed 0 255])
      with (85 + 15 + 255 + 6 + _clamp_int speed 0 255)
      by (unfold sum; simpl; lia).
    reflexivity. }
  assert (Hboth : forall speed w,
            _set_scene_async cfg cs ws scene (Some speed) w
            = (_write_frame cfg cs ws scene_frame;;
               _write_frame cfg cs ws (speed_frame speed)) w).
  { intros speed w. unfold _set_scene_async. fold sc.
    rewrite Hscene, Hspeed. reflexivity. }
  split; [exact Hsc|]. split; [|split].
  - intros w. unfold _set_scene_async. fold sc. rewrite Hscene.
    unfold mbind, M_bind, lift, mret, M_ret.
    destruct (_write_frame cfg cs ws scene_frame w) as [[[]|e] w']; reflexivity.
  - exact Hboth.
  - intros speed w e w' Hfail. rewrite Hboth.
    unfold mbind, M_bind. rewrite Hfail. reflexivity.
Qed.

(** X15: before [connect()] has started the event loop, every command
    method raises the not-connected error of [_run] and changes nothing:
    no frame is built into a write, no connection is attempted. *)
Theorem commands_need_event_loop
    (cfg : config) (cs : nat -> attempt) (ws : nat -> option exn) (w : world) :
  _loop (self w) = false ->
  turn_on cfg cs ws w = (Raise NoEventLoop, w) /\
  turn_off cfg cs ws w = (Raise NoEventLoop, w) /\
  (forall percent, set_brightness cfg cs ws percent w = (Raise NoEventLoop, w)) /\
  (forall r g b, set_rgb cfg cs ws r g b w = (Raise NoEventLoop, w)) /\
  (forall scene speed, set_scene cfg cs ws scene speed w = (Raise NoEventLoop, w)) /\
  (forall name speed scene,
      resolve_scene_name name = Some scene ->
      set_scene_by_name cfg cs ws name speed w = (Raise NoEventLoop, w)).
Proof.
  intros Hloop.
  assert (Hrun : forall coro, _run coro w = (Raise NoEventLoop, w)).
  { intros coro. unfold _run, mbind, M_bind, get_self. rewrite Hloop.
    reflexivity. }
  repeat split; intros; try apply Hrun.
  unfold set_scene_by_name. rewrite H. apply Hrun.
Qed.

Lemma commands_need_event_loop_witness :
  let cfg := default_config "FF:FF:11:52:AB:BD" in
  let cs := fun _ : nat => accepting_attempt in
  let ws := fun _ : nat => @None exn in
  turn_on cfg cs ws unstarted_world = (Raise NoEventLoop, unstarted_world) /\
  turn_off cfg cs ws unstarted_world = (Raise NoEventLoop, unstarted_world) /\
  (forall percent,
      set_brightness cfg cs ws percent unstarted_world
      = (Raise NoEventLoop, unstarted_world)) /\
  (forall r g b,
      set_rgb cfg cs ws r g b unstarted_world
      = (Raise NoEventLoop, unstarted_world)) /\
  (forall scene speed,
      set_scene cfg cs ws scene speed unstarted_world
      = (Raise NoEventLoop, unstarted_world)) /\
  (forall name speed scene,
      resolve_scene_name name = Some scene ->
      set_scene_by_name cfg cs ws name speed unstarted_world
      = (Raise NoEventLoop, unstarted_world)).
Proof.
  apply (commands_need_event_loop
           (default_config "FF:FF:11:52:AB:BD") (fun _ => accepting_attempt)
           (fun _ => None) unstarted_world).
  reflexivity.
Defined.

(** ** Connecting, in general *)

Section ConnectFacts.
Variable cfg : config.
Variable cs : nat -> attempt.

(** [connect_once] is [run_attempt] on the next handle. *)
Lemma connect_once_run (w : world) :
  connect_once cfg cs w
  = (match (run_attempt cfg (connects w) (cs (connects w))).2 with
     | Ok response => Ok (mkBleakClient (connects w) true, response)
     | Raise e => Raise e
     end,
     mkWorld (self w) (S (connects w)) (writes w)
             (trace w ++ (run_attempt cfg (connects w) (cs (connects w))).1)).
Proof.
  unfold run_attempt, subscribe_outcome, connect_once, new_client, await,
    emit, raise, try_except.
  unfold mbind, M_bind, mret, M_ret. cbn.
  destruct (cs (connects w)) as [oc se ogs reg od osn]. cbn.
  destruct oc as [e|]; [reflexivity|].
  destruct se, ogs as [[e|]|]; cbn; try reflexivity;
    destruct reg; cbn;
    try (destruct od as [e1|]; cbn; rewrite <- ?app_assoc; reflexivity);
    destruct osn as [e2|]; cbn;
    try (destruct (is_Exception e2); cbn);
    rewrite <- ?app_assoc; reflexivity.
Qed.

Lemma run_attempt_no_write (id : nat) (a : attempt) :
  Forall no_write (run_attempt cfg id a).1.
Proof.
  unfold run_attempt, no_write.
  destruct (on_connect a); cbn; [repeat constructor|].
  destruct (if services_empty a then on_get_services a else None) as [[e|]|];
    cbn; try (repeat constructor);
    destruct (registry a); cbn; repeat constructor.
Qed.

(** The loop over its first [k] attempts, all of which fail: what is left
    is the loop over the remaining attempts. *)
Lemma connect_loop_failed_prefix (k : nat) :
  forall (attempt : Z) (rest : list Z) (last_err : option exn) (w : world),
    _closing (self w) = false ->
    client_live (self w) = false ->
    (forall i, (i < k)%nat ->
       attempt_error cfg (connects w + i) (cs (connects w + i)) <> None) ->
    connect_loop cfg cs (seqZ attempt (Z.of_nat k) ++ rest) last_err w
    = connect_loop cfg cs rest
        match k with
        | O => last_err
        | S j => attempt_error cfg (connects w + j) (cs (connects w + j))
        end
        (mkWorld (self w) (connects w + k) (writes w)
                 (trace w ++ retry_trace cfg cs k attempt (connects w))).
Proof.
  induction k as [|k IH]; intros attempt rest last_err w Hclosing Hlive Hfail.
  - cbn [seqZ Z.of_nat retry_trace app].
    change (seqZ attempt 0) with (@nil Z). cbn [app].
    rewrite Nat.add_0_r, app_nil_r. destruct w; reflexivity.
  - rewrite seqZ_cons by lia.
    replace (Z.pred (Z.of_nat (S k))) with (Z.of_nat k) by lia.
    pose proof (Hfail 0%nat ltac:(lia)) as H0.
    rewrite Nat.add_0_r in H0. unfold attempt_error in H0.
    destruct ((run_attempt cfg (connects w) (cs (connects w))).2)
      as [resp|e] eqn:Hrun; [congruence|].
    cbn [app connect_loop]. unfold mbind, M_bind, get_self at 1.
    rewrite Hclosing, Hlive. unfold try_except at 1.
    unfold mbind, M_bind. rewrite connect_once_run, Hrun.
    cbn [BaseException emit mret M_ret self connects writes trace].
    set (w1 := mkWorld (self w) (S (connects w)) (writes w) _).
    rewrite (IH (Z.succ attempt) rest (Some e) w1 Hclosing Hlive).
    + subst w1. cbn [self connects writes trace retry_trace].
      f_equal.
      * destruct k as [|j].
        -- rewrite Nat.add_0_r. unfold attempt_error. rewrite Hrun. reflexivity.
        -- replace (S (connects w) + j)%nat with (connects w + S j)%nat by lia.
           reflexivity.
      * f_equal; [lia|].
        rewrite <- !app_assoc. cbn [app]. reflexivity.
    + intros i Hi. subst w1. cbn [connects].
      replace (S (connects w) + i)%nat with (connects w + S i)%nat by lia.
      apply Hfail. lia.
Qed.

(** Whatever the transport does, the loop writes nothing, makes at most
    one connect per attempt, keeps the handle and the write target paired,
    returns normally only with a live connection, and changes no field of
    the object when it raises. *)
Lemma connect_loop_general (attempts : list Z) :
  forall (last_err : option exn) (w w' : world) (r : result unit),
    connect_loop cfg cs attempts last_err w = (r, w') ->
    writes w' = writes w /\
    (connects w <= connects w' <= connects w + length attempts)%nat /\
    (exists tr, trace w' = trace w ++ tr /\ Forall no_write tr) /\
    (paired (self w) = true -> paired (self w') = true) /\
    (r = Ok tt -> client_live (self w') = true) /\
    (forall e, r = Raise e -> self w' = self w).
Proof.
  assert (Hstay : forall (w : world) (r : result unit) (n : nat),
            (r = Ok tt -> client_live (self w) = true) ->
            writes w = writes w /\
            (connects w <= connects w <= connects w + n)%nat /\
            (exists tr, trace w = trace w ++ tr /\ Forall no_write tr) /\
            (paired (self w) = true -> paired (self w) = true) /\
            (r = Ok tt -> client_live (self w) = true) /\
            (forall e, r = Raise e -> self w = self w)).
  { intros w r n Hlive. split; [reflexivity|]. split; [lia|]. split.
    { exists []. rewrite app_nil_r. split; [reflexivity|constructor]. }
    split; [intros H; exact H|]. split; [exact Hlive|reflexivity]. }
  induction attempts as [|attempt rest IH]; intros last_err w w' r Hrun.
  - cbn in Hrun. injection Hrun as <- <-. apply Hstay. discriminate.
  - cbn [connect_loop] in Hrun. unfold mbind, M_bind, get_self in Hrun.
    destruct (_closing (self w)) eqn:Hclosing.
    { cbn in Hrun. injection Hrun as <- <-. apply Hstay. discriminate. }
    destruct (client_live (self w)) eqn:Hlive.
    { cbn in Hrun. injection Hrun as <- <-. apply Hstay. intros _. exact Hlive. }
    unfold try_except in Hrun. rewrite connect_once_run in Hrun.
    pose proof (run_attempt_no_write (connects w) (cs (connects w))) as Hnw.
    destruct ((run_attempt cfg (connects w) (cs (connects w))).2) as [resp|e].
    + cbn in Hrun. injection Hrun as <- <-.
      cbn [self connects writes trace paired client_live _client _write
           is_connected length].
      split; [reflexivity|]. split; [lia|]. split.
      { eexists. split; [reflexivity|exact Hnw]. }
      split; [reflexivity|]. split; [reflexivity|discriminate].
    + cbn [BaseException emit mret M_ret self connects writes trace] in Hrun.
      apply IH in Hrun.
      destruct Hrun as (Hw & Hc & (tr & Htr & Hno) & Hp & Hok & Hraise).
      cbn [self connects writes trace] in *.
      split; [exact Hw|]. split; [cbn [length]; lia|]. split.
      * eexists. rewrite Htr, <- !app_assoc. split; [reflexivity|].
        apply Forall_app. split; [exact Hnw|].
        apply Forall_cons. split; [reflexivity|exact Hno].
      * split; [exact Hp|]. split; [exact Hok|exact Hraise].
Qed.
End ConnectFacts.

(** X16: the early exits of [_connect_async].  With a retry count of zero
    or less it raises the failed-to-connect error at once, with no last
    error, even on an object that is connected.  Otherwise a closing object
    raises the aborted error, and an object with a live connection returns
    at once; in all three cases the transport is not touched and no field
    changes.  [_ensure_connected] returns at once on a live connection,
    whatever the retry count. *)
Theorem connect_async_early_exits
    (cfg : config) (cs : nat -> attempt) (w : world) :
  (_connect_retries cfg <= 0 ->
   _connect_async cfg cs w
   = (Raise (FailedToConnect (_connect_retries cfg) None), w)) /\
  (1 <= _connect_retries cfg -> _closing (self w) = true ->
   _connect_async cfg cs w = (Raise ConnectAborted, w)) /\
  (1 <= _connect_retries cfg -> _closing (self w) = false ->
   client_live (self w) = true ->
   _connect_async cfg cs w = (Ok tt, w)) /\
  (client_live (self w) = true -> _ensure_connected cfg cs w = (Ok tt, w)).
Proof.
  split; [|split; [|split]].
  - intros Hzero. unfold _connect_async, range.
    rewrite seqZ_nil by lia. reflexivity.
  - intros Hpos Hclosing. unfold _connect_async, range.
    rewrite seqZ_cons by lia. cbn [connect_loop].
    unfold mbind, M_bind, get_self. rewrite Hclosing. reflexivity.
  - intros Hpos Hclosing Hlive. unfold _connect_async, range.
    rewrite seqZ_cons by lia. cbn [connect_loop].
    unfold mbind, M_bind, get_self. rewrite Hclosing, Hlive. reflexivity.
  - intros Hlive. unfold _ensure_connected, mbind, M_bind, get_self.
    rewrite Hlive. reflexivity.
Qed.

Lemma connect_async_early_exits_witness :
  let cfg := default_config "FF:FF:11:52:AB:BD" in
  _connect_async cfg (fun _ => refusing_attempt) connected_world
  = (Ok tt, connected_world) /\
  _ensure_connected cfg (fun _ => refusing_attempt) connected_world
  = (Ok tt, connected_world).
Proof.
  destruct (connect_async_early_exits
              (default_config "FF:FF:11:52:AB:BD") (fun _ => refusing_attempt)
              connected_world) as (_ & _ & Hlive & Hensure).
  split.
  - apply Hlive.
    + vm_compute. discriminate.
    + reflexivity.
    + reflexivity.
  - apply Hensure. reflexivity.
Defined.

(** X17: retry until success.  On an object that is not closing and has no
    live connection, if the first [k] attempts fail, in whatever way, and
    attempt [k + 1] is within the retry count and succeeds, then
    [_connect_async] returns normally after exactly [k + 1] attempts and [k]
    backoff sleeps, the sleep after attempt [i] being
    [retry_delay_s * i]; the new handle and the write target with the
    resolved response mode are stored, and the notify event is cleared. *)
Theorem connect_async_retries_until_success
    (cfg : config) (cs : nat -> attempt) (w : world) (k : nat) (response : bool) :
  _closing (self w) = false ->
  client_live (self w) = false ->
  Z.of_nat k < _connect_retries cfg ->
  (forall i, (i < k)%nat ->
     attempt_error cfg (connects w + i) (cs (connects w + i)%nat) <> None) ->
  (run_attempt cfg (connects w + k) (cs (connects w + k)%nat)).2 = Ok response ->
  _connect_async cfg cs w
  = (Ok tt,
     mkWorld (connected_session cfg (self w) (connects w + k) response)
             (connects w + k + 1)%nat (writes w)
             (trace w ++ retry_trace cfg cs k 1 (connects w)
              ++ (run_attempt cfg (connects w + k) (cs (connects w + k)%nat)).1)).
Proof.
  intros Hclosing Hlive Hk Hfail Hok.
  unfold _connect_async, range.
  replace (_connect_retries cfg + 1 - 1)
    with (Z.of_nat k + (_connect_retries cfg - Z.of_nat k)) by lia.
  rewrite seqZ_app by lia.
  rewrite (connect_loop_failed_prefix cfg cs k 1 _ None w Hclosing Hlive Hfail).
  rewrite seqZ_cons by lia. cbn [connect_loop].
  unfold mbind, M_bind, get_self.
  cbn [self connects writes trace]. rewrite Hclosing, Hlive.
  unfold try_except. rewrite connect_once_run.
  cbn [self connects writes trace]. rewrite Hok.
  unfold set_self, connected_session.
  cbn [mret M_ret self connects writes trace].
  f_equal. f_equal; [lia|]. rewrite <- app_assoc. reflexivity.
Qed.

Lemma connect_async_retries_until_success_witness :
  let cfg := default_config "FF:FF:11:52:AB:BD" in
  let cs := fun id : nat =>
              match id with
              | O | 1%nat => refusing_attempt
              | _ => accepting_attempt
              end in
  _connect_async cfg cs fresh_world
  = (Ok tt,
     mkWorld (connected_session cfg (self fresh_world) 2 false) 3 0
             (retry_trace cfg cs 2 1 0 ++ (run_attempt cfg 2 (cs 2%nat)).1)).
Proof.
  apply (connect_async_retries_until_success
           (default_config "FF:FF:11:52:AB:BD")
           (fun id : nat =>
              match id with
              | O | 1%nat => refusing_attempt
              | _ => accepting_attempt
              end)
           fresh_world 2 false).
  - reflexivity.
  - reflexivity.
  - vm_compute. reflexivity.
  - intros [|[|i]] Hi; [discriminate|discriminate|lia].
  - reflexivity.
Defined.

Lemma connect_async_fails_all
    (cfg : config) (cs : nat -> attempt) (w : world) :
  _closing (self w) = false ->
  client_live (self w) = false ->
  0 <= _connect_retries cfg ->
  (forall i, (i < Z.to_nat (_connect_retries cfg))%nat ->
     attempt_error cfg (connects w + i) (cs (connects w + i)%nat) <> None) ->
  _connect_async cfg cs w
  = (Raise (FailedToConnect (_connect_retries cfg)
              match Z.to_nat (_connect_retries cfg) with
              | O => None
              | S j => attempt_error cfg (connects w + j) (cs (connects w + j)%nat)
              end),
     mkWorld (self w) (connects w + Z.to_nat (_connect_retries cfg))%nat (writes w)
             (trace w ++ retry_trace cfg cs (Z.to_nat (_connect_retries cfg)) 1
                                     (connects w))).
Proof.
  intros Hclosing Hlive Hretries Hfail.
  unfold _connect_async, range.
  replace (_connect_retries cfg + 1 - 1)
    with (Z.of_nat (Z.to_nat (_connect_retries cfg))) by lia.
  rewrite <- (app_nil_r (seqZ 1 (Z.of_nat (Z.to_nat (_connect_retries cfg))))).
  rewrite (connect_loop_failed_prefix cfg cs _ 1 [] None w Hclosing Hlive Hfail).
  reflexivity.
Qed.

(** X18: exhausting the retries, whatever goes wrong.  On an object that is
    not closing and has no live connection, if every one of the
    [connect_retries] attempts fails (the connect itself, loading the
    services, a missing service or characteristic, a cancelled
    subscription), [_connect_async] raises the failed-to-connect error that
    carries the exception of the last attempt, after one backoff sleep per
    attempt, and leaves the fields of the object as they were. *)
Theorem connect_async_fails_with_last_error
    (cfg : config) (cs : nat -> attempt) (w : world) :
  _closing (self w) = false ->
  client_live (self w) = false ->
  0 <= _connect_retries cfg ->
  (forall i, (i < Z.to_nat (_connect_retries cfg))%nat ->
     attempt_error cfg (connects w + i) (cs (connects w + i)%nat) <> None) ->
  let n := Z.to_nat (_connect_retries cfg) in
  _connect_async cfg cs w
  = (Raise (FailedToConnect (_connect_retries cfg)
              match n with
              | O => None
              | S j => attempt_error cfg (connects w + j) (cs (connects w + j)%nat)
              end),
     mkWorld (self w) (connects w + n)%nat (writes w)
             (trace w ++ retry_trace cfg cs n 1 (connects w))).
Proof.
  intros Hclosing Hlive Hretries Hfail n. subst n.
  apply connect_async_fails_all; assumption.
Qed.

Lemma connect_async_fails_with_last_error_witness :
  let cfg := default_config "FF:FF:11:52:AB:BD" in
  let cs := fun _ : nat => serviceless_attempt in
  _connect_async cfg cs fresh_world
  = (Raise (FailedToConnect 5 (Some (ServiceNotFound DEFAULT_SERVICE_UUID))),
     mkWorld (self fresh_world) 5 0 (retry_trace cfg cs 5 1 0)).
Proof.
  apply (connect_async_fails_with_last_error
           (default_config "FF:FF:11:52:AB:BD") (fun _ => serviceless_attempt)
           fresh_world).
  - reflexivity.
  - reflexivity.
  - vm_compute. discriminate.
  - intros i _. discriminate.
Defined.

(** X19: a missing service or characteristic fails the attempt after the
    fresh handle is disconnected.  When the connect succeeds and the
    registry lacks the control service (or the write characteristic),
    [connect_once] calls [disconnect] on the new handle and raises the
    not-found error, or the error of that disconnect if it has one; nothing
    is stored in the object. *)
Theorem connect_once_missing_target
    (cfg : config) (cs : nat -> attempt) (w : world) :
  on_connect (cs (connects w)) = None ->
  services_empty (cs (connects w)) = false ->
  let a := cs (connects w) in
  let after :=
    mkWorld (self w) (S (connects w)) (writes w)
            (trace w ++ [EvConnect (connects w); EvDisconnect (connects w)]) in
  (registry a = NoService ->
   connect_once cfg cs w
   = (Raise (default (ServiceNotFound (_service_uuid cfg)) (on_disconnect a)),
      after)) /\
  (registry a = NoCharacteristic ->
   connect_once cfg cs w
   = (Raise (default (WriteCharNotFound (_write_uuid cfg)) (on_disconnect a)),
      after)).
Proof.
  intros Hconn Hloaded a after. subst a after.
  split; intros Hreg; rewrite connect_once_run; unfold run_attempt;
    rewrite Hconn, Hloaded, Hreg; reflexivity.
Qed.

Lemma connect_once_missing_target_witness :
  let cfg := default_config "FF:FF:11:52:AB:BD" in
  let cs := fun _ : nat => serviceless_attempt in
  let after := mkWorld (self fresh_world) 1 0 [EvConnect 0; EvDisconnect 0] in
  (registry serviceless_attempt = NoService ->
   connect_once cfg cs fresh_world
   = (Raise (default (ServiceNotFound (_service_uuid cfg))
                     (on_disconnect serviceless_attempt)),
      after)) /\
  (registry serviceless_attempt = NoCharacteristic ->
   connect_once cfg cs fresh_world
   = (Raise (default (WriteCharNotFound (_write_uuid cfg))
                     (on_disconnect serviceless_attempt)),
      after)).
Proof.
  apply (connect_once_missing_target
           (default_config "FF:FF:11:52:AB:BD") (fun _ => serviceless_attempt)
           fresh_world).
  - reflexivity.
  - reflexivity.
Defined.

(** X20: the subscription is best effort, the response mode comes from the
    characteristic.  When the connect succeeds and the write characteristic
    is found, an [Exception] raised by [start_notify] does not fail the
    attempt, while a cancellation does; the attempt resolves
    [response = True] exactly when the characteristic lacks the
    "write-without-response" property. *)
Theorem connect_once_subscription_best_effort
    (cfg : config) (cs : nat -> attempt) (w : world) (props : list string) :
  on_connect (cs (connects w)) = None ->
  services_empty (cs (connects w)) = false ->
  registry (cs (connects w)) = Characteristic props ->
  let response := negb (bool_decide ("write-without-response"%string ∈ props)) in
  let after :=
    mkWorld (self w) (S (connects w)) (writes w)
            (trace w ++ [EvConnect (connects w); EvStartNotify (connects w)]) in
  (response = true <-> "write-without-response"%string ∉ props) /\
  (forall e, on_start_notify (cs (connects w)) = Some e ->
             is_Exception e = true ->
             connect_once cfg cs w
             = (Ok (mkBleakClient (connects w) true, response), after)) /\
  (on_start_notify (cs (connects w)) = None ->
   connect_once cfg cs w
   = (Ok (mkBleakClient (connects w) true, response), after)) /\
  (forall e, on_start_notify (cs (connects w)) = Some e ->
             is_Exception e = false ->
             connect_once cfg cs w = (Raise e, after)).
Proof.
  intros Hconn Hloaded Hreg response after.
  split; [|split; [|split]].
  - unfold response. rewrite negb_true_iff, bool_decide_eq_false. reflexivity.
  - intros e Hsub Hexc. rewrite connect_once_run. unfold run_attempt.
    rewrite Hconn, Hloaded, Hreg. unfold subscribe_outcome.
    rewrite Hsub, Hexc. reflexivity.
  - intros Hsub. rewrite connect_once_run. unfold run_attempt.
    rewrite Hconn, Hloaded, Hreg. unfold subscribe_outcome.
    rewrite Hsub. reflexivity.
  - intros e Hsub Hexc. rewrite connect_once_run. unfold run_attempt.
    rewrite Hconn, Hloaded, Hreg. unfold subscribe_outcome.
    rewrite Hsub, Hexc. reflexivity.
Qed.

Lemma connect_once_subscription_best_effort_witness :
  let cfg := default_config "FF:FF:11:52:AB:BD" in
  let cs := fun _ : nat =>
    mkAttempt None false None (Characteristic ["write"; "notify"]%string)
              None (Some (BleakError 3)) in
  let props := ["write"; "notify"]%string in
  let response := negb (bool_decide ("write-without-response"%string ∈ props)) in
  let after := mkWorld (self fresh_world) 1 0 [EvConnect 0; EvStartNotify 0] in
  (response = true <-> "write-without-response"%string ∉ props) /\
  (forall e, on_start_notify (cs 0%nat) = Some e ->
             is_Exception e = true ->
             connect_once cfg cs fresh_world
             = (Ok (mkBleakClient 0 true, response), after)) /\
  (on_start_notify (cs 0%nat) = None ->
   connect_once cfg cs fresh_world
   = (Ok (mkBleakClient 0 true, response), after)) /\
  (forall e, on_start_notify (cs 0%nat) = Some e ->
             is_Exception e = false ->
             connect_once cfg cs fresh_world = (Raise e, after)).
Proof.
  apply (connect_once_subscription_best_effort
           (default_config "FF:FF:11:52:AB:BD")
           (fun _ => mkAttempt None false None
                       (Characteristic ["write"; "notify"]%string)
                       None (Some (BleakError 3)))
           fresh_world ["write"; "notify"]%string).
  - reflexivity.
  - reflexivity.
  - reflexivity.
Defined.

(** ** Writing, in general *)

Section WriteFacts.
Variable cfg : config.
Variable cs : nat -> attempt.
Variable ws : nat -> option exn.

Lemma ensure_connected_general (w w' : world) (r : result unit) :
  _ensure_connected cfg cs w = (r, w') ->
  writes w' = writes w /\
  (connects w <= connects w' <= connects w + Z.to_nat (_connect_retries cfg))%nat /\
  (exists tr, trace w' = trace w ++ tr /\ Forall no_write tr) /\
  (paired (self w) = true -> paired (self w') = true) /\
  (r = Ok tt -> client_live (self w') = true) /\
  (forall e, r = Raise e -> self w' = self w).
Proof.
  unfold _ensure_connected, mbind, M_bind, get_self.
  destruct (client_live (self w)) eqn:Hlive.
  - cbn. intros [= <- <-]. split; [reflexivity|]. split; [lia|]. split.
    { exists []. rewrite app_nil_r. split; [reflexivity|constructor]. }
    split; [intros H; exact H|]. split; [intros _; exact Hlive|discriminate].
  - unfold _connect_async. intros Hrun.
    apply connect_loop_general in Hrun.
    unfold range in Hrun. rewrite length_seqZ in Hrun.
    replace (Z.to_nat (_connect_retries cfg + 1 - 1))
      with (Z.to_nat (_connect_retries cfg)) in Hrun by lia.
    exact Hrun.
Qed.

Lemma write_gatt_char_run (client : BleakClient) (write : _WriteConfig)
    (frame : list Z) (w : world) :
  write_gatt_char ws client write frame w
  = (match ws (writes w) with
     | Some e => Raise e
     | None => Ok tt
     end,
     mkWorld (self w) (connects w) (S (writes w))
             (trace w ++ [EvWrite (client_id client) (char_uuid write) frame
                                  (response write)])).
Proof. unfold write_gatt_char. destruct (ws (writes w)); reflexivity. Qed.

Lemma no_write_writes_only (frame : list Z) (tr : list event) :
  Forall no_write tr -> Forall (writes_only frame) tr.
Proof.
  intros Hno. apply (Forall_impl _ _ _ Hno).
  intros ev Hev. unfold no_write in Hev.
  destruct ev; try exact I. discriminate Hev.
Qed.

(** Whatever the transport does, [_write_frame] writes at most twice and
    nothing but [frame], makes at most two rounds of connect attempts, and
    keeps the handle and the write target paired. *)
Lemma write_frame_general (frame : list Z) (w w' : world) (r : result unit) :
  _write_frame cfg cs ws frame w = (r, w') ->
  (writes w <= writes w' <= writes w + 2)%nat /\
  (connects w <= connects w'
   <= connects w + 2 * Z.to_nat (_connect_retries cfg))%nat /\
  (exists tr, trace w' = trace w ++ tr /\ Forall (writes_only frame) tr) /\
  (paired (self w) = true -> paired (self w') = true).
Proof.
  unfold _write_frame. unfold mbind at 1, M_bind at 1.
  destruct (_ensure_connected cfg cs w) as [r0 w0] eqn:E0.
  apply ensure_connected_general in E0.
  destruct E0 as (Hw0 & Hc0 & (tr0 & Htr0 & Hno0) & Hp0 & _ & _).
  apply (no_write_writes_only frame) in Hno0.
  destruct r0 as [[]|e0].
  2:{ intros [= <- <-]. split; [lia|]. split; [lia|].
      split; [exists tr0; split; assumption|exact Hp0]. }
  unfold mbind at 1, M_bind at 1, get_self at 1.
  destruct (_client (self w0)) as [c0|] eqn:Hc, (_write (self w0)) as [wc0|] eqn:Hwc;
    try (intros [= <- <-]; split; [lia|]; split; [lia|];
         split; [exists tr0; split; assumption|exact Hp0]).
  unfold try_except. rewrite write_gatt_char_run.
  set (ev1 := EvWrite (client_id c0) (char_uuid wc0) frame (response wc0)).
  assert (Hev1 : writes_only frame ev1) by reflexivity.
  destruct (ws (writes w0)) as [e1|].
  2:{ intros [= <- <-]. cbn [self connects writes trace].
      split; [lia|]. split; [lia|]. split.
      - exists (tr0 ++ [ev1]). rewrite Htr0, <- app_assoc.
        split; [reflexivity|]. apply Forall_app. split; [exact Hno0|].
        apply Forall_cons. split; [exact Hev1|constructor].
      - exact Hp0. }
  destruct (is_Exception e1).
  2:{ intros [= <- <-]. cbn [self connects writes trace].
      split; [lia|]. split; [lia|]. split.
      - exists (tr0 ++ [ev1]). rewrite Htr0, <- app_assoc.
        split; [reflexivity|]. apply Forall_app. split; [exact Hno0|].
        apply Forall_cons. split; [exact Hev1|constructor].
      - exact Hp0. }
  unfold _on_disconnect, set_self. unfold mbind at 1, M_bind at 1.
  cbn [self connects writes trace]. unfold mbind at 1, M_bind at 1.
  set (w2 := mkWorld _ (connects w0) (S (writes w0)) (trace w0 ++ [ev1])).
  destruct (_ensure_connected cfg cs w2) as [r3 w3] eqn:E3.
  apply ensure_connected_general in E3.
  destruct E3 as (Hw3 & Hc3 & (tr3 & Htr3 & Hno3) & Hp3 & _ & _).
  apply (no_write_writes_only frame) in Hno3.
  subst w2. cbn [self connects writes trace paired _client _write] in *.
  specialize (Hp3 eq_refl).
  assert (Htrace : trace w3 = trace w ++ (tr0 ++ [ev1] ++ tr3)).
  { rewrite Htr3, Htr0, <- !app_assoc. reflexivity. }
  assert (Hall : Forall (writes_only frame) (tr0 ++ [ev1] ++ tr3)).
  { apply Forall_app. split; [exact Hno0|].
    apply Forall_cons. split; [exact Hev1|exact Hno3]. }
  destruct r3 as [[]|e3].
  2:{ intros [= <- <-]. split; [lia|]. split; [lia|].
      split; [eexists; split; [exact Htrace|exact Hall]|intros _; exact Hp3]. }
  unfold mbind at 1, M_bind at 1, get_self at 1.
  destruct (_client (self w3)) as [c3|], (_write (self w3)) as [wc3|];
    try (intros [= <- <-]; split; [lia|]; split; [lia|];
         split; [eexists; split; [exact Htrace|exact Hall]|intros _; exact Hp3]).
  rewrite write_gatt_char_run.
  intros [= <- <-]. cbn [self connects writes trace].
  split; [lia|]. split; [lia|]. split.
  - eexists. rewrite Htrace, <- app_assoc. split; [reflexivity|].
    apply Forall_app. split; [exact Hall|].
    apply Forall_cons. split; [reflexivity|constructor].
  - intros _. exact Hp3.
Qed.
End WriteFacts.

Lemma write_frame_live_run
    (cfg : config) (cs : nat -> attempt) (ws : nat -> option exn)
    (w : world) (frame : list Z) (client : BleakClient) (write : _WriteConfig) :
  _client (self w) = Some client ->
  is_connected client = true ->
  _write (self w) = Some write ->
  ws (writes w) = None ->
  _write_frame cfg cs ws frame w
  = (Ok tt,
     mkWorld (self w) (connects w) (S (writes w))
             (trace w ++ [EvWrite (client_id client) (char_uuid write) frame
                                  (response write)])).
Proof.
  intros Hclient Hconn Hwrite Hok.
  unfold _write_frame, _ensure_connected.
  unfold mbind, M_bind, get_self, client_live.
  rewrite Hclient, Hconn. cbn [mret M_ret self]. rewrite Hclient, Hwrite.
  unfold try_except. rewrite write_gatt_char_run, Hok. reflexivity.
Qed.

(** ** What [_write_frame] does *)

(** X21: whatever the transport does, one call of [_write_frame] issues at
    most two characteristic writes, every one of them carrying the frame it
    was given, and at most [2 * connect_retries] connect attempts. *)
Theorem write_frame_writes_at_most_twice
    (cfg : config) (cs : nat -> attempt) (ws : nat -> option exn)
    (frame : list Z) (w : world) :
  let after := (_write_frame cfg cs ws frame w).2 in
  (writes w <= writes after <= writes w + 2)%nat /\
  (connects w <= connects after
   <= connects w + 2 * Z.to_nat (_connect_retries cfg))%nat /\
  (exists tr, trace after = trace w ++ tr /\ Forall (writes_only frame) tr).
Proof.
  cbv zeta.
  destruct (_write_frame cfg cs ws frame w) as [r w'] eqn:Hrun.
  apply write_frame_general in Hrun.
  destruct Hrun as (Hw & Hc & Htr & _). cbn [snd].
  split; [exact Hw|]. split; [exact Hc|exact Htr].
Qed.

(** X22: the handle and the write target stay paired.  From a state where
    [_client] and [_write] are both set or both unset, [_connect_async],
    [_ensure_connected], [_write_frame] and [_on_disconnect] lead to such a
    state again, whatever the transport does; and when [_ensure_connected]
    returns normally, both are set and the handle is connected, so that the
    "Not connected" branch of [_write_frame] is not taken. *)
Theorem session_stays_paired
    (cfg : config) (cs : nat -> attempt) (ws : nat -> option exn) (w : world) :
  paired (self w) = true ->
  paired (self (_connect_async cfg cs w).2) = true /\
  paired (self (_ensure_connected cfg cs w).2) = true /\
  (forall frame, paired (self (_write_frame cfg cs ws frame w).2) = true) /\
  paired (self (_on_disconnect w).2) = true /\
  (forall w', _ensure_connected cfg cs w = (Ok tt, w') ->
     exists client write,
       _client (self w') = Some client /\ _write (self w') = Some write /\
       is_connected client = true).
Proof.
  intros Hp. split; [|split; [|split; [|split]]].
  - destruct (_connect_async cfg cs w) as [r w'] eqn:Hrun.
    unfold _connect_async in Hrun. apply connect_loop_general in Hrun.
    destruct Hrun as (_ & _ & _ & Hp' & _). exact (Hp' Hp).
  - destruct (_ensure_connected cfg cs w) as [r w'] eqn:Hrun.
    apply ensure_connected_general in Hrun.
    destruct Hrun as (_ & _ & _ & Hp' & _). exact (Hp' Hp).
  - intros frame.
    destruct (_write_frame cfg cs ws frame w) as [r w'] eqn:Hrun.
    apply write_frame_general in Hrun.
    destruct Hrun as (_ & _ & _ & Hp'). exact (Hp' Hp).
  - reflexivity.
  - intros w' Hrun. apply ensure_connected_general in Hrun.
    destruct Hrun as (_ & _ & _ & Hp' & Hlive & _).
    specialize (Hp' Hp). specialize (Hlive eq_refl).
    unfold client_live in Hlive. unfold paired in Hp'.
    destruct (_client (self w')) as [c|]; [|discriminate Hlive].
    destruct (_write (self w')) as [wc|]; [|discriminate Hp'].
    exists c, wc. repeat split. exact Hlive.
Qed.

Lemma session_stays_paired_witness :
  let cfg := default_config "FF:FF:11:52:AB:BD" in
  let cs := fun _ : nat => accepting_attempt in
  let ws := first_write_fails in
  paired (self (_connect_async cfg cs fresh_world).2) = true /\
  paired (self (_ensure_connected cfg cs fresh_world).2) = true /\
  (forall frame, paired (self (_write_frame cfg cs ws frame fresh_world).2) = true) /\
  paired (self (_on_disconnect fresh_world).2) = true /\
  (forall w', _ensure_connected cfg cs fresh_world = (Ok tt, w') ->
     exists client write,
       _client (self w') = Some client /\ _write (self w') = Some write /\
       is_connected client = true).
Proof.
  apply (session_stays_paired
           (default_config "FF:FF:11:52:AB:BD") (fun _ => accepting_attempt)
           first_write_fails fresh_world).
  reflexivity.
Defined.

(** X23: the plain write.  On a live connection, when the write succeeds,
    [_write_frame] issues exactly that one write, to the stored
    characteristic and with the stored response mode, connects to nothing
    and changes no field. *)
Theorem write_frame_on_live_connection
    (cfg : config) (cs : nat -> attempt) (ws : nat -> option exn)
    (w : world) (frame : list Z) (client : BleakClient) (write : _WriteConfig) :
  _client (self w) = Some client ->
  is_connected client = true ->
  _write (self w) = Some write ->
  ws (writes w) = None ->
  _write_frame cfg cs ws frame w
  = (Ok tt,
     mkWorld (self w) (connects w) (S (writes w))
             (trace w ++ [EvWrite (client_id client) (char_uuid write) frame
                                  (response write)])).
Proof. apply write_frame_live_run. Qed.

Lemma write_frame_on_live_connection_witness :
  _write_frame (default_config "FF:FF:11:52:AB:BD") (fun _ => accepting_attempt)
               (fun _ => None) power_on_frame connected_world
  = (Ok tt,
     mkWorld (self connected_world) 1 1
             [EvConnect 0; EvStartNotify 0;
              EvWrite 0 DEFAULT_WRITE_UUID power_on_frame false]).
Proof.
  apply (write_frame_on_live_connection
           (default_config "FF:FF:11:52:AB:BD") (fun _ => accepting_attempt)
           (fun _ => None) connected_world power_on_frame
           (mkBleakClient 0 true)
           (mk_WriteConfig DEFAULT_SERVICE_UUID DEFAULT_WRITE_UUID false)).
  - reflexivity.
  - reflexivity.
  - reflexivity.
  - reflexivity.
Defined.

(** X24: writing connects first when it has to.  On an object that is not
    closing and has no live connection, with at least one retry configured,
    if the first connect attempt succeeds and the write succeeds,
    [_write_frame] connects once, stores the connection and writes the frame
    once on the new handle with the resolved response mode. *)
Theorem write_frame_connects_first
    (cfg : config) (cs : nat -> attempt) (ws : nat -> option exn)
    (w : world) (frame : list Z) (response : bool) :
  _closing (self w) = false ->
  client_live (self w) = false ->
  1 <= _connect_retries cfg ->
  (run_attempt cfg (connects w) (cs (connects w))).2 = Ok response ->
  ws (writes w) = None ->
  _write_frame cfg cs ws frame w
  = (Ok tt,
     mkWorld (connected_session cfg (self w) (connects w) response)
             (S (connects w)) (S (writes w))
             (trace w ++ (run_attempt cfg (connects w) (cs (connects w))).1
              ++ [EvWrite (connects w) (_write_uuid cfg) frame response])).
Proof.
  intros Hclosing Hlive Hretries Hrun Hok.
  unfold _write_frame, _ensure_connected.
  unfold mbind at 1, M_bind at 1. unfold mbind at 1, M_bind at 1, get_self at 1.
  rewrite Hlive. unfold _connect_async, range.
  rewrite seqZ_cons by lia. cbn [connect_loop].
  unfold mbind, M_bind, get_self, try_except.
  rewrite Hclosing, Hlive, connect_once_run, Hrun.
  unfold set_self, connected_session.
  cbn [mret M_ret self connects writes trace _client _write].
  rewrite write_gatt_char_run. cbn [self connects writes trace].
  rewrite Hok. cbn [client_id char_uuid].
  rewrite <- app_assoc. reflexivity.
Qed.

Lemma write_frame_connects_first_witness :
  let cfg := default_config "FF:FF:11:52:AB:BD" in
  _write_frame cfg (fun _ => accepting_attempt) (fun _ => None)
               power_on_frame fresh_world
  = (Ok tt,
     mkWorld (connected_session cfg (self fresh_world) 0 false) 1 1
             [EvConnect 0; EvStartNotify 0;
              EvWrite 0 DEFAULT_WRITE_UUID power_on_frame false]).
Proof.
  apply (write_frame_connects_first
           (default_config "FF:FF:11:52:AB:BD") (fun _ => accepting_attempt)
           (fun _ => None) fresh_world power_on_frame false).
  - reflexivity.
  - reflexivity.
  - vm_compute. discriminate.
  - reflexivity.
  - reflexivity.
Defined.

(** X25: a cancellation is not retried.  When the write on a live
    connection raises something that is not an [Exception] (a cancelled
    task), [_write_frame] lets it through: the connection is kept, nothing
    is reconnected, and the frame is not written again. *)
Theorem write_frame_cancelled_no_retry
    (cfg : config) (cs : nat -> attempt) (ws : nat -> option exn)
    (w : world) (frame : list Z) (client : BleakClient) (write : _WriteConfig)
    (e : exn) :
  _client (self w) = Some client ->
  is_connected client = true ->
  _write (self w) = Some write ->
  ws (writes w) = Some e ->
  is_Exception e = false ->
  _write_frame cfg cs ws frame w
  = (Raise e,
     mkWorld (self w) (connects w) (S (writes w))
             (trace w ++ [EvWrite (client_id client) (char_uuid write) frame
                                  (response write)])).
Proof.
  intros Hclient Hconn Hwrite Hfail Hexc.
  unfold _write_frame, _ensure_connected.
  unfold mbind, M_bind, get_self, client_live.
  rewrite Hclient, Hconn. cbn [mret M_ret self]. rewrite Hclient, Hwrite.
  unfold try_except. rewrite write_gatt_char_run, Hfail, Hexc. reflexivity.
Qed.

Lemma write_frame_cancelled_no_retry_witness :
  _write_frame (default_config "FF:FF:11:52:AB:BD") (fun _ => accepting_attempt)
               (fun _ => Some CancelledError) power_on_frame connected_world
  = (Raise CancelledError,
     mkWorld (self connected_world) 1 1
             [EvConnect 0; EvStartNotify 0;
              EvWrite 0 DEFAULT_WRITE_UUID power_on_frame false]).
Proof.
  apply (write_frame_cancelled_no_retry
           (default_config "FF:FF:11:52:AB:BD") (fun _ => accepting_attempt)
           (fun _ => Some CancelledError) connected_world power_on_frame
           (mkBleakClient 0 true)
           (mk_WriteConfig DEFAULT_SERVICE_UUID DEFAULT_WRITE_UUID false)
           CancelledError).
  - reflexivity.
  - reflexivity.
  - reflexivity.
  - reflexivity.
  - reflexivity.
Defined.

(** X26: a failed reconnect ends the write.  When the write on a live
    connection raises an [Exception] and then every connect attempt fails,
    [_write_frame] raises the failed-to-connect error with the last
    attempt's exception; the frame was written once, and the object is
    left without handle, write target and last notification. *)
Theorem write_frame_reconnect_fails
    (cfg : config) (cs : nat -> attempt) (ws : nat -> option exn)
    (w : world) (frame : list Z) (client : BleakClient) (write : _WriteConfig)
    (e : exn) :
  _client (self w) = Some client ->
  is_connected client = true ->
  _write (self w) = Some write ->
  _closing (self w) = false ->
  0 <= _connect_retries cfg ->
  ws (writes w) = Some e ->
  is_Exception e = true ->
  (forall i, (i < Z.to_nat (_connect_retries cfg))%nat ->
     attempt_error cfg (connects w + i) (cs (connects w + i)%nat) <> None) ->
  let n := Z.to_nat (_connect_retries cfg) in
  _write_frame cfg cs ws frame w
  = (Raise (FailedToConnect (_connect_retries cfg)
              match n with
              | O => None
              | S j => attempt_error cfg (connects w + j) (cs (connects w + j)%nat)
              end),
     mkWorld (mkSession (_loop (self w)) None None false None false)
             (connects w + n)%nat (S (writes w))
             (trace w
              ++ [EvWrite (client_id client) (char_uuid write) frame
                          (response write)]
              ++ retry_trace cfg cs n 1 (connects w))).
Proof.
  intros Hclient Hconn Hwrite Hclosing Hretries Hfail Hexc Hattempts n.
  unfold _write_frame, _ensure_connected.
  unfold mbind at 1, M_bind at 1. unfold mbind at 1, M_bind at 1, get_self at 1.
  unfold client_live at 1. rewrite Hclient, Hconn.
  cbn [mret M_ret]. unfold mbind at 1, M_bind at 1, get_self at 1.
  rewrite Hclient, Hwrite.
  unfold try_except. rewrite write_gatt_char_run, Hfail, Hexc.
  unfold _on_disconnect, set_self.
  unfold mbind at 1, M_bind at 1. cbn [self connects writes trace].
  unfold mbind at 1, M_bind at 1. unfold mbind at 1, M_bind at 1, get_self at 1.
  cbn [self client_live _client].
  set (w1 := mkWorld _ (connects w) (S (writes w)) _).
  rewrite (connect_async_fails_all cfg cs w1).
  - subst w1. cbn [self connects writes trace].
    rewrite Hclosing, <- app_assoc. reflexivity.
  - subst w1. cbn [self _closing]. exact Hclosing.
  - reflexivity.
  - exact Hretries.
  - subst w1. cbn [connects]. exact Hattempts.
Qed.

Lemma write_frame_reconnect_fails_witness :
  let cfg := default_config "FF:FF:11:52:AB:BD" in
  let cs := fun _ : nat => refusing_attempt in
  _write_frame cfg cs first_write_fails power_on_frame connected_world
  = (Raise (FailedToConnect 5 (Some (BleakError 1))),
     mkWorld (mkSession true None None false None false) 6 1
             ([EvConnect 0; EvStartNotify 0]
              ++ [EvWrite 0 DEFAULT_WRITE_UUID power_on_frame false]
              ++ retry_trace cfg cs 5 1 1)).
Proof.
  apply (write_frame_reconnect_fails
           (default_config "FF:FF:11:52:AB:BD") (fun _ => refusing_attempt)
           first_write_fails connected_world power_on_frame
           (mkBleakClient 0 true)
           (mk_WriteConfig DEFAULT_SERVICE_UUID DEFAULT_WRITE_UUID false)
           (BleakError 7)).
  - reflexivity.
  - reflexivity.
  - reflexivity.
  - reflexivity.
  - vm_compute. discriminate.
  - reflexivity.
  - reflexivity.
  - intros i _. discriminate.
Defined.

(** ** Disconnecting and reading the state *)

(** X27: [disconnect()] with the event loop running marks the object as
    closing, drops the handle, the write target and the last notification,
    calls [disconnect] on the handle if there was one (an [Exception] it
    raises is dropped) and stops the loop.  Without a running loop, so
    before any [connect()] or a second time in a row, it raises the
    not-connected error of [_run], having set the closing mark and nothing
    else. *)
Theorem disconnect_clears_the_session (ds : nat -> option exn) (w : world) :
  (_loop (self w) = true ->
   (forall client e,
       _client (self w) = Some client -> ds (client_id client) = Some e ->
       is_Exception e = true) ->
   exists w',
     disconnect ds w = (Ok tt, w') /\
     _loop (self w') = false /\ _closing (self w') = true /\
     _client (self w') = None /\ _write (self w') = None /\
     _last_notify (self w') = None /\
     connects w' = connects w /\ writes w' = writes w /\
     trace w' = trace w ++ match _client (self w) with
                           | Some client => [EvDisconnect (client_id client)]
                           | None => []
                           end /\
     (disconnect ds w').1 = Raise NoEventLoop) /\
  (_loop (self w) = false ->
   disconnect ds w
   = (Raise NoEventLoop,
      mkWorld (mkSession false (_client (self w)) (_write (self w)) true
                         (_last_notify (self w)) (_notify_event (self w)))
              (connects w) (writes w) (trace w))).
Proof.
  split.
  - intros Hloop Hexc.
    unfold disconnect, try_finally, _run, _disconnect_async, _stop_loop_thread,
      set_self, get_self, try_except, await, emit, raise.
    unfold mbind, M_bind, mret, M_ret. cbn [self connects writes trace _loop].
    rewrite Hloop. cbn [self connects writes trace _client].
    destruct (_client (self w)) as [client|] eqn:Hclient.
    + destruct (ds (client_id client)) as [e|] eqn:Hds.
      * rewrite (Hexc client e eq_refl Hds).
        eexists. split; [reflexivity|]. cbn. rewrite ?app_nil_r.
        repeat split; reflexivity.
      * eexists. split; [reflexivity|]. cbn. repeat split; reflexivity.
    + eexists. split; [reflexivity|]. cbn. rewrite ?app_nil_r.
      repeat split; reflexivity.
  - intros Hloop.
    unfold disconnect, try_finally, _run, _stop_loop_thread, set_self, get_self,
      raise.
    unfold mbind, M_bind. cbn [self connects writes trace _loop].
    rewrite Hloop. reflexivity.
Qed.

Lemma disconnect_clears_the_session_witness :
  exists w',
    disconnect (fun _ => None) connected_world = (Ok tt, w') /\
    _loop (self w') = false /\ _closing (self w') = true /\
    _client (self w') = None /\ _write (self w') = None /\
    _last_notify (self w') = None /\
    connects w' = 1%nat /\ writes w' = 0%nat /\
    trace w' = [EvConnect 0; EvStartNotify 0] ++ [EvDisconnect 0] /\
    (disconnect (fun _ => None) w').1 = Raise NoEventLoop.
Proof.
  apply (proj1 (disconnect_clears_the_session (fun _ => None) connected_world)).
  - reflexivity.
  - intros client e _ He. discriminate He.
Defined.

(** X28: [connect()] after [disconnect()] works again.  The closing mark
    that [disconnect()] leaves does not block the next [connect()], which
    restarts the loop and resets the mark: if the first attempt succeeds,
    the object ends up connected on a new handle. *)
Theorem connect_after_disconnect
    (cfg : config) (cs : nat -> attempt) (ds : nat -> option exn)
    (w : world) (response : bool) :
  _loop (self w) = true ->
  (forall client e,
      _client (self w) = Some client -> ds (client_id client) = Some e ->
      is_Exception e = true) ->
  1 <= _connect_retries cfg ->
  (run_attempt cfg (connects w) (cs (connects w))).2 = Ok response ->
  (disconnect ds;; connect cfg cs) w
  = (Ok tt,
     mkWorld
       (mkSession true (Some (mkBleakClient (connects w) true))
          (Some (mk_WriteConfig (_service_uuid cfg) (_write_uuid cfg) response))
          false None false)
       (S (connects w)) (writes w)
       (trace w
        ++ match _client (self w) with
           | Some client => [EvDisconnect (client_id client)]
           | None => []
           end
        ++ (run_attempt cfg (connects w) (cs (connects w))).1)).
Proof.
  intros Hloop Hexc Hretries Hrun.
  assert (Hdis : disconnect ds w
                 = (Ok tt,
                    mkWorld (mkSession false None None true None
                                       (_notify_event (self w)))
                            (connects w) (writes w)
                            (trace w ++ match _client (self w) with
                                        | Some client =>
                                            [EvDisconnect (client_id client)]
                                        | None => []
                                        end))).
  { unfold disconnect, try_finally, _run, _disconnect_async, _stop_loop_thread,
      set_self, get_self, try_except, await, emit, raise.
    unfold mbind, M_bind, mret, M_ret. cbn [self connects writes trace _loop].
    rewrite Hloop. cbn [self connects writes trace _client].
    destruct (_client (self w)) as [client|] eqn:Hclient.
    - destruct (ds (client_id client)) as [e|] eqn:Hds.
      + rewrite (Hexc client e eq_refl Hds). reflexivity.
      + reflexivity.
    - rewrite app_nil_r. reflexivity. }
  unfold mbind at 1, M_bind at 1. rewrite Hdis.
  unfold connect, _start_loop_thread, _run, set_self, get_self.
  unfold mbind, M_bind. cbn [self connects writes trace _loop].
  unfold _connect_async, range. rewrite seqZ_cons by lia. cbn [connect_loop].
  unfold mbind, M_bind, get_self, try_except.
  cbn [self connects writes trace _closing client_live _client].
  rewrite connect_once_run. cbn [self connects writes trace]. rewrite Hrun.
  unfold set_self. cbn [mret M_ret self connects writes trace _loop _closing
                        _last_notify].
  rewrite <- app_assoc. reflexivity.
Qed.

Lemma connect_after_disconnect_witness :
  let cfg := default_config "FF:FF:11:52:AB:BD" in
  (disconnect (fun _ => None);; connect cfg (fun _ => accepting_attempt))
    connected_world
  = (Ok tt,
     mkWorld
       (mkSession true (Some (mkBleakClient 1 true))
          (Some (mk_WriteConfig DEFAULT_SERVICE_UUID DEFAULT_WRITE_UUID false))
          false None false)
       2 0
       ([EvConnect 0; EvStartNotify 0] ++ [EvDisconnect 0]
        ++ [EvConnect 1; EvStartNotify 1])).
Proof.
  apply (connect_after_disconnect
           (default_config "FF:FF:11:52:AB:BD") (fun _ => accepting_attempt)
           (fun _ => None) connected_world false).
  - reflexivity.
  - intros client e _ He. discriminate He.
  - vm_compute. discriminate.
  - reflexivity.
Defined.



(** X30: what [get_state] returns on a live connection.  It sends the
    5-byte sync request if asked to, and then: if a notification arrives
    within the wait, the state is that notification parsed; if none
    arrives, the state has an unknown power flag and brightness and carries
    the raw bytes of the last notification seen earlier, if any, without
    parsing them. *)
Theorem get_state_reads_the_notification
    (cfg : config) (cs : nat -> attempt) (ws : nat -> option exn)
    (request_sync : bool) (arrival : option (list Z)) (w : world)
    (client : BleakClient) (write : _WriteConfig) :
  _loop (self w) = true ->
  _client (self w) = Some client ->
  is_connected client = true ->
  _write (self w) = Some write ->
  (request_sync = true -> ws (writes w) = None) ->
  get_state cfg cs ws request_sync arrival w
  = (Ok match arrival with
        | Some data => _parse_state (Some data)
        | None => mkHexagonState None None (_last_notify (self w))
        end,
     mkWorld
       (mkSession true (Some client) (Some write) (_closing (self w))
          match arrival with
          | Some data => Some data
          | None => _last_notify (self w)
          end
          match arrival with
          | Some _ => true
          | None => false
          end)
       (connects w)
       (if request_sync then S (writes w) else writes w)
       (trace w
        ++ if request_sync
           then [EvWrite (client_id client) (char_uuid write)
                         [0x55; 0x00; 0xFF; 0x05; 0xA6] (response write)]
           else [])).
Proof.
  intros Hloop Hclient Hconn Hwrite Hsync.
  set (w0 := mkWorld
               (mkSession (_loop (self w)) (_client (self w)) (_write (self w))
                          (_closing (self w)) (_last_notify (self w)) false)
               (connects w) (writes w) (trace w)).
  assert (Hens : _run (_ensure_connected cfg cs) w0 = (Ok tt, w0)).
  { unfold _run, _ensure_connected, mbind, M_bind, get_self, client_live.
    subst w0. cbn [self _loop _client]. rewrite Hloop. cbv beta iota.
    cbn [self _client]. rewrite Hclient. cbv beta iota. rewrite Hconn.
    reflexivity. }
  assert (Hsyn : ws (writes w) = None ->
            _run (_request_sync_async cfg cs ws) w0
            = (Ok tt,
               mkWorld (self w0) (connects w) (S (writes w))
                       (trace w ++ [EvWrite (client_id client) (char_uuid write)
                                            [0x55; 0x00; 0xFF; 0x05; 0xA6]
                                            (response write)]))).
  { intros Hok. unfold _run, _request_sync_async.
    unfold mbind at 1, M_bind at 1, get_self at 1.
    replace (_loop (self w0)) with true by (subst w0; cbn; congruence).
    change (_build_command 0 None) with (Ok [0x55; 0x00; 0xFF; 0x05; 0xA6]).
    unfold mbind at 1, M_bind at 1, lift.
    apply (write_frame_live_run cfg cs ws w0 _ client write);
      subst w0; cbn [self connects writes _client _write]; assumption. }
  unfold get_state, set_self.
  unfold mbind at 1, M_bind at 1. fold w0.
  unfold mbind at 1, M_bind at 1. unfold try_except.
  unfold mbind at 1, M_bind at 1. rewrite Hens.
  destruct request_sync.
  - unfold mbind at 1, M_bind at 1. rewrite (Hsyn (Hsync eq_refl)).
    unfold wait_notify, get_self, set_self, mbind, M_bind, mret, M_ret.
    subst w0. cbn [self connects writes trace _notify_event _loop _client
                   _write _closing _last_notify].
    rewrite Hloop, Hclient, Hwrite. destruct arrival; reflexivity.
  - unfold wait_notify, get_self, set_self, mbind, M_bind, mret, M_ret.
    subst w0. cbn [self connects writes trace _notify_event _loop _client
                   _write _closing _last_notify].
    rewrite Hloop, Hclient, Hwrite, app_nil_r. destruct arrival; reflexivity.
Qed.

Lemma get_state_reads_the_notification_witness :
  get_state (default_config "FF:FF:11:52:AB:BD") (fun _ => accepting_attempt)
            (fun _ => None) true (Some tg609_sync_frame) connected_world
  = (Ok (_parse_state (Some tg609_sync_frame)),
     mkWorld
       (mkSession true (Some (mkBleakClient 0 true))
          (Some (mk_WriteConfig DEFAULT_SERVICE_UUID DEFAULT_WRITE_UUID false))
          false (Some tg609_sync_frame) true)
       1 1
       ([EvConnect 0; EvStartNotify 0]
        ++ [EvWrite 0 DEFAULT_WRITE_UUID [0x55; 0x00; 0xFF; 0x05; 0xA6] false])).
Proof.
  apply (get_state_reads_the_notification
           (default_config "FF:FF:11:52:AB:BD") (fun _ => accepting_attempt)
           (fun _ => None) true (Some tg609_sync_frame) connected_world
           (mkBleakClient 0 true)
           (mk_WriteConfig DEFAULT_SERVICE_UUID DEFAULT_WRITE_UUID false)).
  - reflexivity.
  - reflexivity.
  - reflexivity.
  - reflexivity.
  - reflexivity.
Defined.
